(** * Content parser and dashboard merger

    A shallow embedding of the response parser of
    [.github/workflows/scripts/generate_content.py] and of the dashboard
    merger of [scripts/update_dashboard.py], with the properties the
    specification states about them.

    Text is a list of 8-bit characters.  The character classes of the
    regular expressions ([\s], [\w], [\d]), [str.strip], [str.upper] and
    the case-insensitive comparison are those of ASCII: on a text of
    ASCII characters ([ascii_text]) they are Python's, and a statement
    that fixes a result through one of the classes is made for such a
    text.  Characters outside ASCII in the source's string literals
    appear as their UTF-8 bytes.

    Python integers are [Z].  [int] raises ValueError on a decimal string
    of more than [max_str_digits] digits: [parse_section_checked],
    [parse_claude_response_checked] and [get_next_day_number] follow that
    error, while [parse_section] and [parse_claude_response] give the
    value of a call that does not raise.  The same limit on the way back,
    from a number of that size to its decimal text, is not modelled. *)

From Stdlib Require Import Ascii String ZArith Lia Bool Arith List.
From Stdlib Require Import DecimalString Sorted.
From Stdlib Require DecimalPos.
Import ListNotations.

Local Open Scope list_scope.

(** ** Text *)

Definition text := list ascii.

(** A literal of the source. *)
Definition str (s : string) : text := list_ascii_of_string s.

Definition code (c : ascii) : nat := nat_of_ascii c.

Definition in_range (lo hi : nat) (c : ascii) : bool :=
  (lo <=? code c) && (code c <=? hi).

(** A character of ASCII. *)
Definition is_ascii (c : ascii) : bool := code c <? 128.

(** A text of ASCII characters: the texts on which the classes, the
    stripping and the casing below are those of Python. *)
Definition ascii_text (s : text) : bool := forallb is_ascii s.

(** [str.isspace], which is also the class [\s], on ASCII: tab, line
    feed, vertical tab, form feed, carriage return, the four separators
    28..31, space. *)
Definition is_space (c : ascii) : bool :=
  in_range 9 13 c || in_range 28 31 c || (code c =? 32).

(** The class [\d] on ASCII. *)
Definition is_digit (c : ascii) : bool := in_range 48 57 c.

Definition is_upper (c : ascii) : bool := in_range 65 90 c.
Definition is_lower (c : ascii) : bool := in_range 97 122 c.

(** The class [\w] on ASCII: letters, digits and the underscore. *)
Definition is_word (c : ascii) : bool :=
  is_upper c || is_lower c || is_digit c || (code c =? 95).

Definition upper_char (c : ascii) : ascii :=
  if is_lower c then ascii_of_nat (code c - 32) else c.

Definition lower_char (c : ascii) : ascii :=
  if is_upper c then ascii_of_nat (code c + 32) else c.

(** [str.upper] on ASCII text. *)
Definition upper (s : text) : text := map upper_char s.

Definition ascii_eqb (a b : ascii) : bool := Ascii.eqb a b.


(** [s.startswith(p)]. *)
Fixpoint startswith (p s : text) : bool :=
  match p, s with
  | [], _ => true
  | x :: p', y :: s' => ascii_eqb x y && startswith p' s'
  | _ :: _, [] => false
  end.

Fixpoint drop_while (p : ascii -> bool) (s : text) : text :=
  match s with
  | [] => []
  | c :: s' => if p c then drop_while p s' else s
  end.

Fixpoint take_while (p : ascii -> bool) (s : text) : text :=
  match s with
  | [] => []
  | c :: s' => if p c then c :: take_while p s' else []
  end.

(** [str.lstrip], [str.rstrip] and [str.strip] for a set of characters. *)
Definition lstrip_by (p : ascii -> bool) (s : text) : text := drop_while p s.
Definition rstrip_by (p : ascii -> bool) (s : text) : text :=
  rev (drop_while p (rev s)).
Definition strip_by (p : ascii -> bool) (s : text) : text :=
  rstrip_by p (lstrip_by p s).

(** [s.strip()], [s.rstrip()] and [s.rstrip(',')]. *)
Definition strip (s : text) : text := strip_by is_space s.
Definition rstrip (s : text) : text := rstrip_by is_space s.
Definition is_comma (c : ascii) : bool := code c =? 44.
Definition rstrip_commas (s : text) : text := rstrip_by is_comma s.

(** [sep.join(parts)]. *)
Fixpoint join (sep : text) (parts : list text) : text :=
  match parts with
  | [] => []
  | [p] => p
  | p :: rest => p ++ sep ++ join sep rest
  end.

(** [s.find(sub)] as the text before and after the first occurrence. *)
Fixpoint find (sub s : text) : option (text * text) :=
  if startswith sub s then Some ([], skipn (length sub) s)
  else match s with
       | [] => None
       | c :: s' =>
           match find sub s' with
           | Some (a, b) => Some (c :: a, b)
           | None => None
           end
       end.

(** [s.split(sep)] for a non-empty separator: the occurrences are taken
    from the left, without overlap.  The counter bounds the number of
    occurrences; [split] starts it at the length of the text. *)
Fixpoint split_upto (n : nat) (sep s : text) : list text :=
  match n with
  | O => [s]
  | S n' =>
      match find sep s with
      | None => [s]
      | Some (a, b) => a :: split_upto n' sep b
      end
  end.

Definition split (sep s : text) : list text := split_upto (length s) sep s.

(** [s.replace(old, new)] for a non-empty [old]: every occurrence, from
    the left and without overlap. *)
Fixpoint replace_upto (n : nat) (old new s : text) : text :=
  match n with
  | O => s
  | S n' =>
      if startswith old s then new ++ replace_upto n' old new (skipn (length old) s)
      else match s with
           | [] => []
           | c :: s' => c :: replace_upto n' old new s'
           end
  end.

Definition replace (old new s : text) : text :=
  replace_upto (length s) old new s.

(** [str(n)] and the [{n}] of an f-string, for an integer. *)
Definition str_of_int (n : Z) : text :=
  str (NilZero.string_of_int (Z.to_int n)).

(** The number [int(s)] returns for a string of decimal digits. *)
Definition digit_value (c : ascii) : Z := Z.of_nat (code c - 48).

Definition int_of_digits (s : text) : Z :=
  fold_left (fun acc c => 10 * acc + digit_value c)%Z s 0%Z.

(** [sys.int_info.default_max_str_digits]: [int] raises ValueError on a
    string of more digits, leading zeros counted.  The scripts leave the
    limit as it is. *)
Definition max_str_digits : nat := 4300.

Definition int_raises (s : text) : bool := max_str_digits <? length s.

(** [int(s)] on a string of decimal digits; [None] when it raises. *)
Definition int_checked (s : text) : option Z :=
  if int_raises s then None else Some (int_of_digits s).


(** ** Regular expressions

    The fragment of Python's [re] the two scripts use: literal characters,
    a greedy starred class and one capturing group holding a greedy
    class repeated at least once.  Matching backtracks as [re] does: a
    greedy repetition first takes all it can and gives characters back
    one at a time while the rest of the pattern fails. *)

Inductive cls : Type :=
| Space                (* \s *)
| Digit                (* \d *)
| Word                 (* \w *)
| Dot                  (* .  *)
| NotChar (x : ascii). (* [^x] *)

Inductive node : Type :=
| Lit (x : ascii)      (* a literal character *)
| Star (k : cls)       (* k*     *)
| Group (k : cls).     (* (k+)   *)

Definition regex := list node.

Record flags : Type := { IGNORECASE : bool; DOTALL : bool }.

Definition newline : ascii := ascii_of_nat 10.

Definition cls_match (f : flags) (k : cls) (c : ascii) : bool :=
  match k with
  | Space => is_space c
  | Digit => is_digit c
  | Word => is_word c
  | Dot => DOTALL f || negb (ascii_eqb c newline)
  | NotChar x => negb (ascii_eqb c x)
  end.

Definition lit_match (f : flags) (x c : ascii) : bool :=
  if IGNORECASE f then ascii_eqb (lower_char x) (lower_char c)
  else ascii_eqb x c.

(** A match of the rest of a pattern: the text of group 1 and the text
    left after the match. *)
Definition matched := option (text * text).

(** [k*] followed by the continuation [rest]. *)
Fixpoint star (p : ascii -> bool) (rest : text -> matched) (s : text) : matched :=
  match s with
  | c :: s' =>
      if p c then
        match star p rest s' with
        | Some r => Some r
        | None => rest s
        end
      else rest s
  | [] => rest []
  end.

(** The characters of a group after its first one. *)
Fixpoint group_more (p : ascii -> bool) (rest : text -> option text) (s : text)
  : matched :=
  match s with
  | c :: s' =>
      if p c then
        match group_more p rest s' with
        | Some (g, r) => Some (c :: g, r)
        | None => option_map (fun r => ([], r)) (rest s)
        end
      else option_map (fun r => ([], r)) (rest s)
  | [] => option_map (fun r => ([], r)) (rest [])
  end.

(** [(k+)] followed by the continuation [rest]. *)
Definition group_plus (p : ascii -> bool) (rest : text -> option text) (s : text)
  : matched :=
  match s with
  | c :: s' =>
      if p c then
        match group_more p rest s' with
        | Some (g, r) => Some (c :: g, r)
        | None => None
        end
      else None
  | [] => None
  end.

(** [re.match]: the pattern at the start of [s]. *)
Fixpoint match_here (f : flags) (re : regex) (s : text) : matched :=
  match re with
  | [] => Some ([], s)
  | Lit x :: re' =>
      match s with
      | c :: s' => if lit_match f x c then match_here f re' s' else None
      | [] => None
      end
  | Star k :: re' => star (cls_match f k) (match_here f re') s
  | Group k :: re' =>
      group_plus (cls_match f k)
        (fun s' => option_map snd (match_here f re' s')) s
  end.

(** [re.search]: the leftmost match, as the text before it, group 1 and
    the text after it. *)
Fixpoint search (f : flags) (re : regex) (s : text) : option (text * text * text) :=
  match match_here f re s with
  | Some (g, r) => Some ([], g, r)
  | None =>
      match s with
      | [] => None
      | c :: s' =>
          match search f re s' with
          | Some (b, g, r) => Some (c :: b, g, r)
          | None => None
          end
      end
  end.

Definition lit (s : string) : regex := map Lit (str s).

Definition no_flags : flags := {| IGNORECASE := false; DOTALL := false |}.
Definition ignorecase : flags := {| IGNORECASE := true; DOTALL := false |}.
Definition dotall : flags := {| IGNORECASE := false; DOTALL := true |}.
Definition ignorecase_dotall : flags := {| IGNORECASE := true; DOTALL := true |}.

(** ** The response parser of generate_content.py *)

Record resource : Type := {
  day : Z;
  category : text;
  title : text;
  hook : text;
  description : text;
  key_points : list text;
  password : text;
  full_content : text
}.

(** [r'DAY:\s*(\d+)'] *)
Definition day_pattern : regex := lit "DAY:" ++ [Star Space; Group Digit].

(** [r'<LABEL>:\s*(.+)'] for CATEGORY, TITLE, HOOK, DESCRIPTION,
    KEY_POINT_i and FULL_CONTENT. *)
Definition line_pattern (label : text) : regex :=
  map Lit label ++ [Lit ":"%char; Star Space; Group Dot].

(** [r'PASSWORD:\s*(\w+)'] *)
Definition password_field_pattern : regex := lit "PASSWORD:" ++ [Star Space; Group Word].

Definition group1 (m : option (text * text * text)) : option text :=
  match m with
  | Some (_, g, _) => Some g
  | None => None
  end.

(** [m.group(1).strip() if m else default] *)
Definition field (label : string) (default : string) (section : text) : text :=
  match group1 (search ignorecase (line_pattern (str label)) section) with
  | Some g => strip g
  | None => str default
  end.

(** The loop over [range(1, 4)]. *)
Definition key_point (i : Z) (section : text) : list text :=
  match group1 (search ignorecase
                  (line_pattern (str "KEY_POINT_" ++ str_of_int i)) section) with
  | Some g => [strip g]
  | None => []
  end.

Definition parse_key_points (section : text) : list text :=
  flat_map (fun i => key_point i section) [1%Z; 2%Z; 3%Z].

Definition content_not_found : text := str "Content not found.".

Definition delimiter : text := str "---".

Definition parse_full_content (section : text) : text :=
  match group1 (search ignorecase_dotall (line_pattern (str "FULL_CONTENT")) section) with
  | Some g => strip (hd [] (split delimiter (strip g)))
  | None => content_not_found
  end.

Definition parse_password (section : text) : text :=
  match group1 (search ignorecase password_field_pattern section) with
  | Some g => upper g
  | None => str "ACCESS"
  end.

(** The body of the loop for one non-blank section: the record built and
    the value of [day_counter] afterwards, for a DAY field that [int]
    accepts. *)
Definition parse_section (section : text) (day_counter : Z) : resource * Z :=
  let (d, day_counter') :=
    match group1 (search ignorecase day_pattern section) with
    | Some g => (int_of_digits g, day_counter)
    | None => (day_counter, (day_counter + 1)%Z)
    end in
  ({| day := d;
      category := field "CATEGORY" "Career" section;
      title := field "TITLE" "Untitled" section;
      hook := field "HOOK" "" section;
      description := field "DESCRIPTION" "" section;
      key_points := parse_key_points section;
      password := parse_password section;
      full_content := parse_full_content section |},
   day_counter').

(** Truth value of a string. *)
Definition truthy (s : text) : bool :=
  match s with
  | [] => false
  | _ :: _ => true
  end.

(** [resource.get('title') and resource.get('full_content')] *)
Definition accepted (r : resource) : bool :=
  truthy (title r) && truthy (full_content r).

(** [not section.strip()] *)
Definition blank (section : text) : bool := negb (truthy (strip section)).

(** The [for section in sections] loop; [resources.append] builds the
    result in section order. *)
Fixpoint parse_sections (sections : list text) (day_counter : Z) : list resource :=
  match sections with
  | [] => []
  | section :: rest =>
      if blank section then parse_sections rest day_counter
      else
        let (r, day_counter') := parse_section section day_counter in
        if accepted r then r :: parse_sections rest day_counter'
        else parse_sections rest day_counter'
  end.

Definition parse_claude_response (content : text) (start_day : Z) : list resource :=
  parse_sections (split delimiter content) start_day.

(** *** The parser with its error

    [int] is the one call of the loop that can raise, and nothing in the
    parser catches it.  The functions below are the loop once more, with
    [None] for a call that ends in ValueError. *)

Definition parse_section_checked (section : text) (day_counter : Z)
  : option (resource * Z) :=
  match
    match group1 (search ignorecase day_pattern section) with
    | Some g =>
        match int_checked g with
        | Some d => Some (d, day_counter)
        | None => None
        end
    | None => Some (day_counter, (day_counter + 1)%Z)
    end
  with
  | None => None
  | Some (d, day_counter') =>
      Some ({| day := d;
               category := field "CATEGORY" "Career" section;
               title := field "TITLE" "Untitled" section;
               hook := field "HOOK" "" section;
               description := field "DESCRIPTION" "" section;
               key_points := parse_key_points section;
               password := parse_password section;
               full_content := parse_full_content section |},
            day_counter')
  end.

Fixpoint parse_sections_checked (sections : list text) (day_counter : Z)
  : option (list resource) :=
  match sections with
  | [] => Some []
  | section :: rest =>
      if blank section then parse_sections_checked rest day_counter
      else
        match parse_section_checked section day_counter with
        | None => None
        | Some (r, day_counter') =>
            match parse_sections_checked rest day_counter' with
            | None => None
            | Some resources =>
                Some (if accepted r then r :: resources else resources)
            end
        end
  end.

Definition parse_claude_response_checked (content : text) (start_day : Z)
  : option (list resource) :=
  parse_sections_checked (split delimiter content) start_day.

(** [f"Day_{day}_{title.replace(' ', '_').replace('/', '_')}.pdf"], the
    name under which [create_professional_pdf] builds the document. *)
Definition create_professional_pdf_filename (r : resource) : text :=
  str "Day_" ++ str_of_int (day r) ++ str "_"
  ++ replace (str "/") (str "_") (replace (str " ") (str "_") (title r))
  ++ str ".pdf".

(** ** The dashboard merger of update_dashboard.py

    A resource read back from [new_content.json] is the same record; a
    missing [key_points] key is the empty list, as
    [resource.get('key_points', [])] reads it. *)

Definition nl : text := [newline].
Definition dq : text := [ascii_of_nat 34].

(** A double-quoted attribute value. *)
Definition quoted (s : string) : text := dq ++ str s ++ dq.

Definition gradients : list text :=
  [ str "linear-gradient(135deg, #ff006e, #8338ec)";
    str "linear-gradient(135deg, #8338ec, #00f2ea)";
    str "linear-gradient(135deg, #00f2ea, #3a86ff)";
    str "linear-gradient(135deg, #3a86ff, #ff006e)";
    str "linear-gradient(135deg, #ff006e, #fb5607)";
    str "linear-gradient(135deg, #fb5607, #ffbe0b)";
    str "linear-gradient(135deg, #ffbe0b, #00f2ea)";
    str "linear-gradient(135deg, #00f2ea, #8338ec)";
    str "linear-gradient(135deg, #8338ec, #ff006e)";
    str "linear-gradient(135deg, #ff006e, #3a86ff)" ].

(** [gradients[(resource['day'] - 1) % len(gradients)]]; [%] takes the
    sign of the divisor, as [Z.modulo] does, so the index is in range. *)
Definition gradient_index (d : Z) : nat :=
  Z.to_nat ((d - 1) mod Z.of_nat (length gradients)).

Definition card_gradient (r : resource) : text :=
  nth (gradient_index (day r)) gradients [].

Definition key_points_html (r : resource) : text :=
  concat (map (fun point => str "                <li>" ++ point ++ str "</li>" ++ nl)
              (key_points r)).

Definition indent (n : nat) : text := repeat " "%char n.

(** The head of the card, up to the gradient. *)
Definition card_head (r : resource) : text :=
  nl
  ++ indent 16 ++ str "<!-- Day " ++ str_of_int (day r) ++ str " -->" ++ nl
  ++ indent 16 ++ str "<div class=" ++ quoted "day-card" ++ str ">" ++ nl
  ++ indent 20 ++ str "<div class=" ++ quoted "day-card-image"
  ++ str " style=" ++ dq ++ str "background: ".

(** The rest of the card, after the gradient. *)
Definition card_tail (r : resource) : text :=
  str ";" ++ dq ++ str ">" ++ nl
  ++ indent 24 ++ str "<div class=" ++ quoted "day-number-overlay" ++ str ">Day "
  ++ str_of_int (day r) ++ str "</div>" ++ nl
  ++ indent 20 ++ str "</div>" ++ nl
  ++ indent 20 ++ str "<div class=" ++ quoted "day-card-content" ++ str ">" ++ nl
  ++ indent 24 ++ str "<span class=" ++ quoted "day-badge" ++ str ">Day "
  ++ str_of_int (day r) ++ str " • " ++ category r ++ str "</span>" ++ nl
  ++ indent 24 ++ str "<h3 class=" ++ quoted "day-title" ++ str ">" ++ title r
  ++ str "</h3>" ++ nl
  ++ indent 24 ++ str "<p class=" ++ quoted "day-description" ++ str ">" ++ hook r
  ++ str "</p>" ++ nl
  ++ indent 24 ++ str "<ul class=" ++ quoted "day-points" ++ str ">" ++ nl
  ++ key_points_html r ++ indent 24 ++ str "</ul>" ++ nl
  ++ indent 24 ++ str "<button class=" ++ quoted "download-btn locked-btn"
  ++ str " onclick=" ++ dq ++ str "showPasswordModal('day" ++ str_of_int (day r)
  ++ str "', '" ++ title r ++ str "')" ++ dq ++ str ">" ++ nl
  ++ indent 28 ++ str "🔒 Unlock Day " ++ str_of_int (day r) ++ str " PDF" ++ nl
  ++ indent 24 ++ str "</button>" ++ nl
  ++ indent 20 ++ str "</div>" ++ nl
  ++ indent 16 ++ str "</div>" ++ nl.

Definition create_card_html (r : resource) : text :=
  card_head r ++ card_gradient r ++ card_tail r.

(** [f"day{resource['day']}"] *)
Definition day_key (r : resource) : text := str "day" ++ str_of_int (day r).

(** One line of a keyed table: [f"            {day_key}: '{value}'"]. *)
Definition table_entry (r : resource) (value : text) : text :=
  indent 12 ++ day_key r ++ str ": '" ++ value ++ str "'".

(** [r'const <name> = \{([^}]+)\};'] *)
Definition table_pattern (name : string) : regex :=
  lit "const " ++ lit name ++ lit " = {" ++ [Group (NotChar "}"%char)] ++ lit "};".

(** [password_pattern] of [update_passwords_js] and [pdf_pattern] of
    [update_pdf_paths_js]. *)
Definition password_pattern : regex := table_pattern "passwords".
Definition pdf_pattern : regex := table_pattern "pdfFiles".

(** [f"const <name> = {{{current}}}"], the text [str.replace] looks for. *)
Definition table_literal (name : string) (current : text) : text :=
  str "const " ++ str name ++ str " = {" ++ current ++ str "}".

(** [current.rstrip().rstrip(',') + ',\n' + ',\n'.join(entries)] *)
Definition updated_table (current : text) (entries : list text) : text :=
  rstrip_commas (rstrip current) ++ str "," ++ nl ++ join (str "," ++ nl) entries.

(** [f"const <name> = {{\n{updated}\n        }}"] *)
Definition new_table_literal (name : string) (updated : text) : text :=
  str "const " ++ str name ++ str " = {" ++ nl ++ updated ++ nl ++ indent 8 ++ str "}".

(** The common shape of [update_passwords_js] and [update_pdf_paths_js]. *)
Definition update_table (name : string) (entries : list text) (html_content : text)
  : text :=
  match group1 (search dotall (table_pattern name) html_content) with
  | None => html_content
  | Some current =>
      replace (table_literal name current)
              (new_table_literal name (updated_table current entries))
              html_content
  end.

Definition new_password_entries (resources : list resource) : list text :=
  map (fun r => table_entry r (password r)) resources.

Definition update_passwords_js (html_content : text) (resources : list resource)
  : text :=
  update_table "passwords" (new_password_entries resources) html_content.

(** The [pdf_filename] of [update_pdf_paths_js]. *)
Definition pdf_filename (r : resource) : text :=
  str "Day_" ++ str_of_int (day r) ++ str "_"
  ++ replace (str "/") (str "_") (replace (str " ") (str "_") (title r))
  ++ str ".pdf".

Definition new_pdf_entries (resources : list resource) : list text :=
  map (fun r => table_entry r (pdf_filename r)) resources.

Definition update_pdf_paths_js (html_content : text) (resources : list resource)
  : text :=
  update_table "pdfFiles" (new_pdf_entries resources) html_content.

(** *** The files and the run of [update_dashboard] *)

(** The files of the working directory, by name. *)
Definition files := string -> option text.

Definition write_file (name : string) (content : text) (fs : files) : files :=
  fun n => if String.eqb n name then Some content else fs n.

(** How a call ends: with a returned value or with an uncaught exception. *)
Inductive outcome : Type :=
| Returned (b : bool)
| Raised.

Section Merger.

(** BeautifulSoup and the JSON reader are libraries outside the
    repository; the merger is given over their interface. *)
Variable soup : Type.
Variable tag : Type.
(** [BeautifulSoup(html, 'html.parser')] *)
Variable BeautifulSoup : text -> soup.
(** [soup.find('div', class_='days-grid')] *)
Variable find_days_grid : soup -> option tag.
(** [days_grid.append(new_card)], as the tree afterwards. *)
Variable append : soup -> tag -> soup -> soup.
(** [str(soup)] and [soup.prettify()] *)
Variable soup_str : soup -> text.
Variable prettify : soup -> text.
(** [json.load(f)['resources']]; [None] when it raises. *)
Variable load_resources : text -> option (list resource).

(** The [for resource in new_resources] loop that appends the cards. *)
Definition add_cards (s : soup) (days_grid : tag) (new_resources : list resource)
  : soup :=
  fold_left (fun s r => append s days_grid (BeautifulSoup (create_card_html r)))
            new_resources s.

(** [update_dashboard()]: the outcome and the files afterwards. *)
Definition update_dashboard (fs : files) : outcome * files :=
  match fs "new_content.json"%string with
  | None => (Returned false, fs)
  | Some json =>
      match load_resources json with
      | None => (Raised, fs)
      | Some new_resources =>
          match fs "index.html"%string with
          | None => (Returned false, fs)
          | Some html_content =>
              let s := BeautifulSoup html_content in
              match find_days_grid s with
              | None => (Returned false, fs)
              | Some days_grid =>
                  let s := add_cards s days_grid new_resources in
                  let updated_js := update_passwords_js (soup_str s) new_resources in
                  let s := BeautifulSoup updated_js in
                  let updated_js := update_pdf_paths_js (soup_str s) new_resources in
                  let s := BeautifulSoup updated_js in
                  (Returned true, write_file "index.html" (prettify s) fs)
              end
          end
      end
  end.

End Merger.

(** ** Vocabulary of the statements *)

(** The literal [label] at the start of [s], under the flags: what follows it. *)
Fixpoint lit_prefix (f : flags) (label s : text) : option text :=
  match label with
  | [] => Some s
  | x :: label' =>
      match s with
      | c :: s' => if lit_match f x c then lit_prefix f label' s' else None
      | [] => None
      end
  end.

(** A text that spells a label under the flags. *)
Definition spells (f : flags) (label lab : text) : Prop :=
  Forall2 (fun x c => lit_match f x c = true) label lab.

(** The first occurrence of a label, in any casing: the text before it
    and the text after it. *)
Definition find_label (label : string) (s : text) : option (text * text) :=
  match search ignorecase (lit label) s with
  | Some (before, _, after) => Some (before, after)
  | None => None
  end.

(** The text up to the first occurrence of [sep], or all of it. *)
Definition first_piece (sep s : text) : text :=
  match find sep s with
  | Some (a, _) => a
  | None => s
  end.

(** Whether a section carries a [DAY] field the parser can read. *)
Definition has_day_field (section : text) : bool :=
  match search ignorecase day_pattern section with
  | Some _ => true
  | None => false
  end.

(** Every non-blank section with the record the loop builds for it, kept
    or not. *)
Fixpoint section_records (sections : list text) (day_counter : Z)
  : list (text * resource) :=
  match sections with
  | [] => []
  | section :: rest =>
      if blank section then section_records rest day_counter
      else
        let (r, day_counter') := parse_section section day_counter in
        (section, r) :: section_records rest day_counter'
  end.

(** The day numbers given from the counter, in section order. *)
Definition fallback_days (content : text) (start_day : Z) : list Z :=
  map (fun sr => day (snd sr))
      (filter (fun sr => negb (has_day_field (fst sr)))
              (section_records (split delimiter content) start_day)).

(** [d, d + 1, ..., d + n - 1] *)
Definition consecutive (d : Z) (n : nat) : list Z :=
  map (fun i => (d + Z.of_nat i)%Z) (seq 0 n).

(** A section the loop keeps, by the guard of the code: it is not blank
    and its record has a title and a full content that are not empty. *)
Definition valid_section (section : text) : bool :=
  negb (blank section) && accepted (fst (parse_section section 0)).



(** A section whose DAY field [int] refuses. *)
Definition day_overlong (section : text) : bool :=
  match group1 (search ignorecase day_pattern section) with
  | Some g => int_raises g
  | None => false
  end.


(** A character of a title as it appears in a file name. *)
Definition underscore (c : ascii) : ascii :=
  if ascii_eqb c " "%char || ascii_eqb c "/"%char then "_"%char else c.

(** A separator left behind a table: a comma or white space. *)
Definition is_separator (c : ascii) : bool := is_comma c || is_space c.

(** A token of the class [p] behind a label: the label in any casing,
    white space, then the longest run of [p] characters. *)
Definition labelled_token (label : text) (p : ascii -> bool)
  (section before tok after : text) : Prop :=
  exists lab ws,
    section = before ++ lab ++ ws ++ tok ++ after /\
    map lower_char lab = map lower_char label /\
    forallb is_space ws = true /\
    tok <> [] /\ forallb p tok = true /\
    match after with
    | [] => True
    | c :: _ => p c = false
    end.

(** ** Sample inputs *)

Definition sample_resource (d : Z) (cat ttl : string) : resource :=
  {| day := d; category := str cat; title := str ttl; hook := [];
     description := []; key_points := []; password := str "ACCESS";
     full_content := str "Text." |}.


(** A response whose first section supplies day 11 and whose second
    section has no DAY field. *)
Definition colliding_response : text :=
  str "DAY: 11" ++ nl ++ str "TITLE: Ask For More" ++ nl ++ str "FULL_CONTENT: a"
  ++ str "---"
  ++ str "TITLE: Mirror Tactic" ++ nl ++ str "FULL_CONTENT: b".

(** A stand-in for the HTML library on flat text: the document is its
    text, the container is found by its class name, a card is appended at
    the end. *)
Definition flat_find_days_grid (s : text) : option unit :=
  match find (str "days-grid") s with
  | Some _ => Some tt
  | None => None
  end.

Definition flat_append (s : text) (_ : unit) (card : text) : text := s ++ card.

Definition no_resources (_ : text) : option (list resource) := Some [].

(** A directory whose dashboard has no container. *)
Definition sample_files : files :=
  fun name =>
    if String.eqb name "index.html" then Some (str "<html><body></body></html>")
    else if String.eqb name "new_content.json" then Some (str "{}")
    else None.

(** A section whose full content runs over several lines. *)
Definition full_content_section : text :=
  str "TITLE: Ask" ++ nl ++ str "FULL_CONTENT:" ++ nl
  ++ str "Line one" ++ nl ++ nl ++ str "Line two" ++ nl.

(** The text of a table's declaration up to its opening brace. *)
Definition table_head (name : string) : text :=
  str "const " ++ str name ++ str " = {".

(** The class [[^}]]. *)
Definition not_brace (c : ascii) : bool := negb (ascii_eqb c "}"%char).

(** What a table update does to a document: nothing when the declaration
    is not found; otherwise the text of the declaration found is
    rewritten wherever it occurs, and the text between its occurrences
    stays as it is. *)
Definition rewritten_literal (name : string) (entries : list text)
  (html result : text) : Prop :=
  match search dotall (table_pattern name) html with
  | None => result = html
  | Some (before, current, after) =>
      let old := table_literal name current in
      let new := new_table_literal name (updated_table current entries) in
      html = before ++ old ++ str ";" ++ after /\
      result = replace old new before ++ new ++ str ";" ++ replace old new after /\
      html = join old (split old html) /\
      result = join new (split old html) /\
      (find old before = None /\ find old after = None ->
       result = before ++ new ++ str ";" ++ after)
  end.

(** The example of the specification: a table ending with day10 and the
    resources of days 11 and 12. *)
Definition sample_before : text := str "<script>" ++ nl ++ indent 8.
Definition sample_current : text :=
  nl ++ indent 12 ++ str "day9: 'RAISE'," ++ nl
  ++ indent 12 ++ str "day10: 'FOCUS'" ++ nl ++ indent 8.
Definition sample_after : text := nl ++ str "</script>".
Definition sample_document : text :=
  sample_before ++ str "const passwords = {" ++ sample_current ++ str "};"
  ++ sample_after.
Definition sample_new_resources : list resource :=
  [ {| day := 11; category := str "Negotiation"; title := str "Ask For More";
       hook := []; description := []; key_points := [];
       password := str "ASK"; full_content := str "Text." |};
    {| day := 12; category := str "Interview"; title := str "Mirror Tactic";
       hook := []; description := []; key_points := [];
       password := str "MIRROR"; full_content := str "Text." |} ].

(** A document in which the text of the declaration occurs twice, the
    first time without the semicolon the pattern asks for. *)
Definition twice_document : text :=
  str "const passwords = {a} const passwords = {a};".

(** ** Further code of the two scripts *)

(** Whether a text begins with a character of the class [p]. *)
Definition begins (p : ascii -> bool) (s : text) : bool :=
  match s with
  | [] => false
  | c :: _ => p c
  end.

(** [re.findall] for a pattern with one group that does not match the
    empty text: group 1 of the matches, taken from the left without
    overlap.  The counter bounds the number of matches; [findall] starts
    it at the length of the text. *)
Fixpoint findall_upto (n : nat) (f : flags) (re : regex) (s : text) : list text :=
  match n with
  | O => []
  | S n' =>
      match search f re s with
      | None => []
      | Some (_, g, r) => g :: findall_upto n' f re r
      end
  end.

Definition findall (f : flags) (re : regex) (s : text) : list text :=
  findall_upto (length s) f re s.

(** [r'Day (\d+)'] *)
Definition day_word_pattern : regex := lit "Day " ++ [Group Digit].

(** [max] of a non-empty list of integers. *)
Definition max_of (x : Z) (rest : list Z) : Z := fold_left Z.max rest x.

(** [re.findall(r'Day (\d+)', content)] *)
Definition days (content : text) : list text :=
  findall no_flags day_word_pattern content.

(** [[int(d) for d in days]]; [None] when a conversion raises. *)
Fixpoint ints (ds : list text) : option (list Z) :=
  match ds with
  | [] => Some []
  | d :: rest =>
      match int_checked d with
      | None => None
      | Some n =>
          match ints rest with
          | None => None
          | Some ns => Some (n :: ns)
          end
      end
  end.

(** [get_next_day_number()] of generate_content.py.  A file that cannot
    be opened or read, and a day [int] refuses, end in the bare [except],
    and with it in the default, like a file without a day. *)
Definition get_next_day_number (fs : files) : Z :=
  match fs "index.html"%string with
  | None => 11
  | Some content =>
      match ints (days content) with
      | None => 11
      | Some [] => 11
      | Some (d :: rest) => (max_of d rest + 1)%Z
      end
  end.


(** A text of one line without white space around it. *)
Definition single_line (t : text) : Prop := ~ In newline t /\ strip t = t.

(** The fields of a record that do not depend on the day counter. *)
Definition fields_of (r : resource)
  : text * text * text * text * list text * text * text :=
  (category r, title r, hook r, description r, key_points r, password r,
   full_content r).

(** One step of [int]: the next digit behind the number read so far. *)
Definition digit_step (a : Z) (c : ascii) : Z := (10 * a + digit_value c)%Z.


(** A character that is neither a space nor a slash. *)
Definition plain_char (c : ascii) : bool :=
  negb (ascii_eqb c " "%char) && negb (ascii_eqb c "/"%char).

(** A document with a pdfFiles table ending with day10. *)
Definition sample_pdf_current : text :=
  nl ++ indent 12 ++ str "day10: 'Day_10_Focus.pdf'," ++ nl ++ indent 8.
Definition sample_pdf_document : text :=
  sample_before ++ str "const pdfFiles = {" ++ sample_pdf_current ++ str "};"
  ++ sample_after.

(** A directory with both inputs of the merger, the dashboard holding the
    container. *)
Definition sample_merge_files : files :=
  fun name =>
    if String.eqb name "index.html"
    then Some (str "<div class='days-grid'></div>")
    else if String.eqb name "new_content.json" then Some (str "{}")
    else None.


(** *** The run of [generate_new_content] *)

(** The prompt, [viral_json] being [json.dumps(viral_content, indent=2)]. *)
Definition prompt (viral_json : text) (next_day : Z) : text :=
  str "You are Alyssa Harper, a career and negotiation expert who helps professionals level up through practical, data-driven advice.

CONTEXT: You already have resources for Days 1-"
  ++ str_of_int (next_day - 1)
  ++ str ". You need to create 3 NEW unique resources.

TRENDING TIKTOK CONTENT (for inspiration):
"
  ++ viral_json
  ++ str "

TASK: Generate 3 brand new career resources in EXACTLY this format:

---
DAY: "
  ++ str_of_int next_day
  ++ str "
CATEGORY: [One word: Negotiation/LinkedIn/Interview/Career/Communication/etc]
TITLE: [Catchy 3-5 word title]
HOOK: [7-15 word attention-grabbing hook that makes people want to learn more]
DESCRIPTION: [One sentence value proposition]
KEY_POINT_1: [Specific, actionable bullet point]
KEY_POINT_2: [Specific, actionable bullet point]
KEY_POINT_3: [Specific, actionable bullet point]
PASSWORD: [ONE WORD in ALLCAPS, relevant to topic]
FULL_CONTENT:
[Write a 400-600 word detailed guide in this structure:
- Start with the problem/pain point
- Introduce the framework/method
- Break down 3-5 specific steps with examples
- Include real numbers/stats where possible
- End with call to action to implement
- Write in Alyssa Harper's confident, direct, no-BS voice]
---

[Repeat for Day "
  ++ str_of_int (next_day + 1)
  ++ str " and Day "
  ++ str_of_int (next_day + 2)
  ++ str "]

REQUIREMENTS:
- Each resource must be UNIQUE (different from Days 1-"
  ++ str_of_int (next_day - 1)
  ++ str " and from each other)
- Focus on trending topics from the TikTok data
- Include specific numbers, frameworks, and examples
- Make it immediately actionable
- Use Alyssa Harper's voice: confident, direct, empowering
- Each password should be ONE WORD related to the topic

Generate 3 complete resources now:".

(** One entry of [trending_content.json], with the keys the generator
    reads; the engagement score is a float, kept as it is. *)
Record video (score : Type) : Type := {
  video_text : text;
  engagement_score : score;
  hashtags : list text
}.

Arguments video_text {score}.
Arguments engagement_score {score}.
Arguments hashtags {score}.

(** How a call of the generator ends: with the list it returns or with
    an uncaught exception. *)
Inductive generation : Type :=
| Generated (resources : list resource)
| GenerationRaised.

(** The name of a file, from the text the code computes. *)
Definition file_name (t : text) : string := string_of_list_ascii t.

(** Truth value of a value that may be missing: [not api_key]. *)
Definition present (v : option text) : option text :=
  match v with
  | Some (c :: s) => Some (c :: s)
  | _ => None
  end.

Section Generator.

(** The environment, the JSON reader and writer, the API client and the
    PDF library are outside the repository; the generator is given over
    their interface. *)
Variable score : Type.
(** [os.environ.get(name)] *)
Variable environ : string -> option text.
(** [json.load(f)['top_videos']] with the keys of each entry; [None] when
    it raises. *)
Variable load_trending : text -> option (list (video score)).
(** [json.dumps(viral_content, indent=2)] *)
Variable dumps : list (text * score * list text) -> text.
(** [client.messages.create(...)] for an API key and a prompt, and the
    text of the reply; [None] when the call or the reading raises. *)
Variable create_message : text -> text -> option text.
(** [doc.build(story)] for the document of a resource: the bytes of the
    file; [None] when it raises, in which case no file is left. *)
Variable build_pdf : resource -> option text.
(** [json.dump(output, f, indent=2)], [output] holding the time of the
    call and the resources. *)
Variable dump_output : list resource -> text.

(** The loop that fills [viral_content]. *)
Definition viral_content (trending : list (video score))
  : list (text * score * list text) :=
  map (fun v => (firstn 500 (video_text v), engagement_score v,
                 firstn 5 (hashtags v)))
      (firstn 15 trending).

(** [create_professional_pdf(resource)]: the files afterwards, [None]
    when building the document raises. *)
Definition create_professional_pdf (r : resource) (fs : files) : option files :=
  match build_pdf r with
  | None => None
  | Some bytes =>
      Some (write_file (file_name (create_professional_pdf_filename r)) bytes fs)
  end.

(** The [for resource in resources] loop that creates the PDFs: whether
    it came to its end, and the files afterwards. *)
Fixpoint create_pdfs (resources : list resource) (fs : files) : bool * files :=
  match resources with
  | [] => (true, fs)
  | r :: rest =>
      match create_professional_pdf r fs with
      | None => (false, fs)
      | Some fs' => create_pdfs rest fs'
      end
  end.

(** [generate_new_content()]: how it ends and the files afterwards. *)
Definition generate_new_content (fs : files) : generation * files :=
  match present (environ "ANTHROPIC_API_KEY"%string) with
  | None => (Generated [], fs)
  | Some api_key =>
      match fs "trending_content.json"%string with
      | None => (Generated [], fs)
      | Some json =>
          match load_trending json with
          | None => (GenerationRaised, fs)
          | Some trending =>
              let next_day := get_next_day_number fs in
              match create_message api_key
                      (prompt (dumps (viral_content trending)) next_day) with
              | None => (Generated [], fs)
              | Some content =>
                  match parse_claude_response_checked content next_day with
                  | None => (GenerationRaised, fs)
                  | Some resources =>
                      match create_pdfs resources fs with
                      | (false, fs') => (GenerationRaised, fs')
                      | (true, fs') =>
                          (Generated resources,
                           write_file "new_content.json" (dump_output resources)
                                      fs')
                      end
                  end
              end
          end
      end
  end.

End Generator.

(** A stand-in for the libraries of the generator: the reply is a fixed
    response, a PDF is its title. *)
Definition sample_environ (name : string) : option text :=
  if String.eqb name "ANTHROPIC_API_KEY" then Some (str "sk-test") else None.

Definition sample_reply (_ _ : text) : option text :=
  Some (str "---" ++ nl ++ str "TITLE: Ask For More" ++ nl
        ++ str "FULL_CONTENT: Ask." ++ nl ++ str "---").

Definition sample_trending_files : files :=
  fun name =>
    if String.eqb name "trending_content.json" then Some (str "{}") else None.

(** [re.sub] for a pattern that does not match the empty text and a
    replacement without escapes: every match, from the left and without
    overlap, gives way to the replacement.  The counter bounds the number
    of matches; [sub] starts it at the length of the text. *)
Fixpoint sub_upto (n : nat) (f : flags) (re : regex) (repl s : text) : text :=
  match n with
  | O => s
  | S n' =>
      match search f re s with
      | None => s
      | Some (b, _, r) => b ++ repl ++ sub_upto n' f re repl r
      end
  end.

Definition sub (f : flags) (re : regex) (repl s : text) : text :=
  sub_upto (length s) f re repl s.

Definition series_phrase : text := str "-Day Career Acceleration Series".

(** [r'(\d+)-Day Career Acceleration Series'] *)
Definition series_pattern : regex := Group Digit :: map Lit series_phrase.

(** [update_section_title(html_content, highest_day)] of
    update_dashboard.py. *)
Definition update_section_title (html_content : text) (highest_day : Z) : text :=
  sub no_flags series_pattern (str_of_int highest_day ++ series_phrase)
      html_content.

(** ** Text: lemmas *)

Lemma ascii_eqb_eq (a b : ascii) : ascii_eqb a b = true <-> a = b.
Proof. unfold ascii_eqb. apply Ascii.eqb_eq. Qed.

Lemma ascii_eqb_refl (a : ascii) : ascii_eqb a a = true.
Proof. apply ascii_eqb_eq. reflexivity. Qed.

Lemma startswith_app (p r : text) : startswith p (p ++ r) = true.
Proof.
  induction p as [|x p IH]; simpl; [reflexivity|].
  now rewrite ascii_eqb_refl, IH.
Qed.

Lemma startswith_true (p s : text) :
  startswith p s = true -> s = p ++ skipn (length p) s.
Proof.
  revert s. induction p as [|x p IH]; intros [|c s] H; simpl in *;
    try reflexivity; try discriminate.
  apply andb_true_iff in H. destruct H as [Hx Hp].
  apply ascii_eqb_eq in Hx. subst c. f_equal. now apply IH.
Qed.

Lemma startswith_length (p s : text) :
  startswith p s = true -> length p <= length s.
Proof.
  intros H. apply startswith_true in H.
  rewrite H, length_app. lia.
Qed.

Lemma find_some (sub s a b : text) :
  find sub s = Some (a, b) -> s = a ++ sub ++ b.
Proof.
  revert a b. induction s as [|c s IH]; intros a b H.
  - destruct sub; simpl in H; [|discriminate].
    injection H as <- <-. reflexivity.
  - cbn [find] in H. destruct (startswith sub (c :: s)) eqn:E.
    + injection H as <- <-. simpl. now apply startswith_true.
    + destruct (find sub s) as [[a' b']|]; [|discriminate].
      injection H as <- <-. simpl. f_equal. now apply IH.
Qed.

Lemma find_shorter (sub s a b : text) :
  sub <> [] -> find sub s = Some (a, b) -> length b < length s.
Proof.
  intros Hne H. apply find_some in H. subst s.
  rewrite !length_app. destruct sub; [congruence|]. simpl. lia.
Qed.

Lemma find_nil (sub : text) : sub <> [] -> find sub [] = None.
Proof. destruct sub; [congruence|reflexivity]. Qed.

Section Unfolding.

Variables (old new : text).
Hypothesis old_nonempty : old <> [].

Lemma skipn_old_shorter (s : text) :
  startswith old s = true -> length (skipn (length old) s) < length s.
Proof.
  intros H. pose proof (startswith_length _ _ H).
  rewrite length_skipn. destruct old; [congruence|]. simpl in *. lia.
Qed.

Lemma replace_upto_enough (n : nat) :
  forall s, length s <= n -> replace_upto n old new s = replace old new s.
Proof.
  unfold replace.
  induction n as [n IH] using lt_wf_ind. intros s Hs.
  destruct n as [|n].
  - destruct s; [reflexivity|simpl in Hs; lia].
  - destruct s as [|c s].
    + simpl. destruct (startswith old []) eqn:E; [|reflexivity].
      apply startswith_length in E. destruct old; [congruence|simpl in E; lia].
    + cbn [length replace_upto].
      destruct (startswith old (c :: s)) eqn:E.
      * pose proof (skipn_old_shorter _ E) as Hl. cbn [length] in Hl, Hs.
        f_equal.
        rewrite (IH n) by lia.
        rewrite (IH (length s)) by lia. reflexivity.
      * f_equal. apply IH; simpl in Hs; lia.
Qed.

(** The equation of [replace]. *)
Lemma replace_unfold (s : text) :
  replace old new s =
  if startswith old s then new ++ replace old new (skipn (length old) s)
  else match s with
       | [] => []
       | c :: s' => c :: replace old new s'
       end.
Proof.
  destruct s as [|c s].
  - unfold replace at 1. simpl.
    destruct (startswith old []) eqn:E; [|reflexivity].
    apply startswith_length in E. destruct old; [congruence|simpl in E; lia].
  - unfold replace at 1. cbn [length replace_upto].
    destruct (startswith old (c :: s)) eqn:E.
    + pose proof (skipn_old_shorter _ E) as Hl. cbn [length] in Hl.
      rewrite replace_upto_enough by lia. reflexivity.
    + rewrite replace_upto_enough by lia. reflexivity.
Qed.

Lemma split_upto_enough (n : nat) :
  forall s, length s <= n -> split_upto n old s = split old s.
Proof.
  unfold split.
  induction n as [n IH] using lt_wf_ind. intros s Hs.
  destruct n as [|n].
  - destruct s; [reflexivity|simpl in Hs; lia].
  - destruct s as [|c s].
    + cbn [length split_upto]. now rewrite find_nil.
    + cbn [length split_upto].
      destruct (find old (c :: s)) as [[a b]|] eqn:E; [|reflexivity].
      pose proof (find_shorter _ _ _ _ old_nonempty E) as Hl.
      cbn [length] in Hl, Hs. f_equal.
      rewrite (IH n) by lia. rewrite (IH (length s)) by lia. reflexivity.
Qed.

(** The equation of [split]. *)
Lemma split_unfold (s : text) :
  split old s =
  match find old s with
  | None => [s]
  | Some (a, b) => a :: split old b
  end.
Proof.
  destruct s as [|c s].
  - unfold split at 1. cbn [length split_upto]. now rewrite find_nil.
  - unfold split at 1. cbn [length split_upto].
    destruct (find old (c :: s)) as [[a b]|] eqn:E; [|reflexivity].
    pose proof (find_shorter _ _ _ _ old_nonempty E) as Hl.
    cbn [length] in Hl.
    rewrite split_upto_enough by lia. reflexivity.
Qed.

Lemma hd_split (s : text) : hd [] (split old s) = first_piece old s.
Proof.
  rewrite split_unfold. unfold first_piece.
  destruct (find old s) as [[a b]|]; reflexivity.
Qed.

End Unfolding.

Lemma take_drop_while (p : ascii -> bool) (s : text) :
  take_while p s ++ drop_while p s = s.
Proof.
  induction s as [|c s IH]; simpl; [reflexivity|].
  destruct (p c); simpl; [now rewrite IH|reflexivity].
Qed.

Lemma forallb_take_while (p : ascii -> bool) (s : text) :
  forallb p (take_while p s) = true.
Proof.
  induction s as [|c s IH]; simpl; [reflexivity|].
  destruct (p c) eqn:E; simpl; [now rewrite E|reflexivity].
Qed.

Lemma drop_while_head (p : ascii -> bool) (s : text) :
  match drop_while p s with
  | [] => True
  | c :: _ => p c = false
  end.
Proof.
  induction s as [|c s IH]; simpl; [exact I|].
  destruct (p c) eqn:E; [exact IH|exact E].
Qed.

Lemma drop_while_all (p : ascii -> bool) (a b : text) :
  forallb p a = true -> drop_while p (a ++ b) = drop_while p b.
Proof.
  induction a as [|c a IH]; simpl; [reflexivity|].
  intros H. apply andb_true_iff in H. destruct H as [Hc Ha].
  rewrite Hc. now apply IH.
Qed.

Lemma drop_while_idem (p : ascii -> bool) (s : text) :
  drop_while p (drop_while p s) = drop_while p s.
Proof.
  induction s as [|c s IH]; simpl; [reflexivity|].
  destruct (p c) eqn:E; [exact IH|]. simpl. now rewrite E.
Qed.

Lemma drop_while_app_tail (p : ascii -> bool) (y ws : text) :
  forallb p ws = true ->
  exists ws', drop_while p (y ++ ws) = drop_while p y ++ ws' /\ forallb p ws' = true.
Proof.
  intros Hws. induction y as [|c y IH]; simpl.
  - exists []. split; [|reflexivity].
    rewrite <- (app_nil_r ws). now apply drop_while_all.
  - destruct (p c); [exact IH|]. exists ws. now split.
Qed.

Lemma forallb_rev (p : ascii -> bool) (s : text) :
  forallb p (rev s) = forallb p s.
Proof.
  induction s as [|c s IH]; simpl; [reflexivity|].
  rewrite forallb_app, IH. simpl. rewrite andb_true_r. apply andb_comm.
Qed.

(** What [rstrip] removes is a run of the stripped characters. *)
Lemma rstrip_by_decomp (p : ascii -> bool) (s : text) :
  exists ws, s = rstrip_by p s ++ ws /\ forallb p ws = true.
Proof.
  unfold rstrip_by. exists (rev (take_while p (rev s))). split.
  - rewrite <- rev_app_distr, take_drop_while. symmetry. apply rev_involutive.
  - rewrite forallb_rev. apply forallb_take_while.
Qed.

Lemma rstrip_by_app_all (p : ascii -> bool) (y ws : text) :
  forallb p ws = true -> rstrip_by p (y ++ ws) = rstrip_by p y.
Proof.
  intros H. unfold rstrip_by. rewrite rev_app_distr.
  rewrite drop_while_all; [reflexivity|]. now rewrite forallb_rev.
Qed.

Lemma strip_by_app_all (p : ascii -> bool) (y ws : text) :
  forallb p ws = true -> strip_by p (y ++ ws) = strip_by p y.
Proof.
  intros H. unfold strip_by, lstrip_by.
  destruct (drop_while_app_tail p y ws H) as (ws' & -> & Hws').
  now apply rstrip_by_app_all.
Qed.

Lemma strip_by_lstrip (p : ascii -> bool) (s : text) :
  strip_by p (drop_while p s) = strip_by p s.
Proof. unfold strip_by, lstrip_by. now rewrite drop_while_idem. Qed.

Lemma strip_by_all_left (p : ascii -> bool) (ws s : text) :
  forallb p ws = true -> strip_by p (ws ++ s) = strip_by p s.
Proof.
  intros H. unfold strip_by, lstrip_by. now rewrite drop_while_all.
Qed.

Section FirstPiece.

(** A separator made of characters outside the stripped set. *)
Variables (p : ascii -> bool) (x : ascii) (d' : text).
Let d : text := x :: d'.
Hypothesis d_outside : forallb (fun c => negb (p c)) d = true.

Lemma startswith_app_stripped (e y ws : text) :
  forallb (fun c => negb (p c)) e = true -> forallb p ws = true ->
  startswith e (y ++ ws) = startswith e y.
Proof.
  revert y. induction e as [|z e IH]; intros y He Hws; [reflexivity|].
  simpl in He. apply andb_true_iff in He. destruct He as [Hz He].
  destruct y as [|c y]; simpl.
  - destruct ws as [|c ws]; [reflexivity|].
    simpl in Hws. apply andb_true_iff in Hws. destruct Hws as [Hc _].
    destruct (ascii_eqb z c) eqn:E; [|reflexivity].
    apply ascii_eqb_eq in E. subst c. rewrite Hc in Hz. discriminate.
  - now rewrite IH.
Qed.

Lemma find_stripped_run (ws : text) : forallb p ws = true -> find d ws = None.
Proof.
  induction ws as [|c ws IH]; intros H; [reflexivity|].
  cbn [find].
  rewrite <- (app_nil_l (c :: ws)), startswith_app_stripped by assumption.
  cbn [startswith d app].
  simpl in H. apply andb_true_iff in H. destruct H as [_ H].
  now rewrite IH.
Qed.

Lemma find_app_stripped (y ws : text) :
  forallb p ws = true ->
  find d (y ++ ws) =
  match find d y with
  | Some (a, b) => Some (a, b ++ ws)
  | None => None
  end.
Proof.
  intros Hws. induction y as [|c y IH].
  - simpl app. rewrite find_stripped_run by assumption. reflexivity.
  - cbn [find app]. change (c :: y ++ ws) with ((c :: y) ++ ws).
    rewrite startswith_app_stripped by assumption.
    destruct (startswith d (c :: y)) eqn:E.
    + apply startswith_length in E.
      rewrite skipn_app.
      replace (length d - length (c :: y)) with 0 by lia.
      reflexivity.
    + cbn [app]. rewrite IH. destruct (find d y) as [[a b]|]; reflexivity.
Qed.

Lemma first_piece_cons_stripped (c : ascii) (t : text) :
  p c = true -> first_piece d (c :: t) = c :: first_piece d t.
Proof.
  intros Hc. unfold first_piece. cbn [find].
  assert (E : startswith d (c :: t) = false).
  { unfold d. simpl. simpl in d_outside.
    apply andb_true_iff in d_outside. destruct d_outside as [Hx _].
    destruct (ascii_eqb x c) eqn:E; [|reflexivity].
    apply ascii_eqb_eq in E. subst c. rewrite Hc in Hx. discriminate. }
  rewrite E. destruct (find d t) as [[a b]|]; reflexivity.
Qed.

Lemma first_piece_lstrip (t : text) :
  drop_while p (first_piece d t) = first_piece d (drop_while p t).
Proof.
  induction t as [|c t IH]; [reflexivity|].
  simpl drop_while at 2. destruct (p c) eqn:E.
  - rewrite first_piece_cons_stripped by assumption. simpl. now rewrite E.
  - unfold first_piece. cbn [find].
    destruct (startswith d (c :: t)); [reflexivity|].
    destruct (find d t) as [[a b]|]; simpl; now rewrite E.
Qed.

(** Stripping before or after cutting at the separator is the same. *)
Lemma strip_first_piece (t : text) :
  strip_by p (first_piece d (strip_by p t)) = strip_by p (first_piece d t).
Proof.
  unfold strip_by at 2. unfold lstrip_by.
  destruct (rstrip_by_decomp p (drop_while p t)) as (ws & Hu & Hws).
  set (u := rstrip_by p (drop_while p t)) in *.
  transitivity (strip_by p (first_piece d (drop_while p t))).
  - rewrite Hu. unfold first_piece at 2.
    rewrite find_app_stripped by assumption.
    unfold first_piece.
    destruct (find d u) as [[a b]|]; [reflexivity|].
    symmetry. now apply strip_by_app_all.
  - rewrite <- first_piece_lstrip. apply strip_by_lstrip.
Qed.

End FirstPiece.

Lemma replace_char (a b : ascii) (s : text) :
  replace [a] [b] s = map (fun c => if ascii_eqb c a then b else c) s.
Proof.
  assert (Hne : [a] <> []) by discriminate.
  induction s as [|c s IH]; [reflexivity|].
  rewrite replace_unfold by assumption. simpl.
  destruct (ascii_eqb a c) eqn:E.
  - apply ascii_eqb_eq in E. subst c. rewrite ascii_eqb_refl, IH. reflexivity.
  - destruct (ascii_eqb c a) eqn:E2.
    + apply ascii_eqb_eq in E2. subst c. rewrite ascii_eqb_refl in E. discriminate.
    + now rewrite IH.
Qed.

Section Replace.

Variables (old new : text).
Hypothesis old_nonempty : old <> [].

(** Without an occurrence the text is returned as it is. *)
Lemma replace_none (s : text) : find old s = None -> replace old new s = s.
Proof.
  induction s as [|c s IH]; intros H; [reflexivity|].
  rewrite replace_unfold by assumption. cbn [find] in H.
  destruct (startswith old (c :: s)); [discriminate|].
  destruct (find old s) as [[a b]|]; [discriminate|].
  now rewrite IH.
Qed.

Lemma startswith_app_l (y z : text) :
  startswith old y = true -> startswith old (y ++ z) = true.
Proof.
  intros H. apply startswith_true in H. rewrite H, <- app_assoc.
  apply startswith_app.
Qed.

Lemma startswith_app_inv (y z : text) :
  startswith old (y ++ z) = true -> length old <= length y ->
  startswith old y = true.
Proof.
  clear old_nonempty. revert y. induction old as [|o e IH]; intros y H Hl;
    [reflexivity|].
  destruct y as [|c y]; [simpl in Hl; lia|].
  simpl in *. apply andb_true_iff in H. destruct H as [-> H].
  simpl. apply IH; [exact H|lia].
Qed.

(** An occurrence that no earlier occurrence runs into is replaced, and
    the texts on its two sides are rewritten on their own. *)
Lemma replace_at_occurrence (a b : text) :
  (forall i, i < length a ->
             startswith old (skipn i (a ++ old ++ b)) = true ->
             i + length old <= length a) ->
  replace old new (a ++ old ++ b) = replace old new a ++ new ++ replace old new b.
Proof.
  remember (length a) as n eqn:Hn. revert a Hn.
  induction n as [n IH] using lt_wf_ind. intros a Hn Hocc.
  destruct a as [|c a].
  - simpl. rewrite replace_unfold by assumption.
    rewrite startswith_app, skipn_app, skipn_all, Nat.sub_diag. reflexivity.
  - rewrite (replace_unfold old new old_nonempty ((c :: a) ++ old ++ b)).
    rewrite (replace_unfold old new old_nonempty (c :: a)).
    destruct (startswith old ((c :: a) ++ old ++ b)) eqn:E.
    + assert (Hl : length old <= length (c :: a)).
      { specialize (Hocc 0). simpl in Hocc. rewrite Hn in Hocc.
        simpl. apply Hocc; [simpl; lia|exact E]. }
      rewrite (startswith_app_inv _ _ E Hl).
      rewrite skipn_app. replace (length old - length (c :: a)) with 0 by lia.
      simpl skipn at 2. rewrite <- app_assoc. f_equal.
      assert (Hs : length (skipn (length old) (c :: a)) < n).
      { rewrite length_skipn, Hn. destruct old; [congruence|]. simpl. lia. }
      apply (IH _ Hs); [reflexivity|].
      intros i Hi Hpre.
      specialize (Hocc (i + length old)).
      rewrite length_skipn in Hi |- *. rewrite Hn in Hocc.
      assert (Hgo : i + length old + length old <= length (c :: a)).
      { apply Hocc; [lia|].
        rewrite <- skipn_skipn.
        rewrite (skipn_app (length old) (c :: a)).
        replace (length old - length (c :: a)) with 0 by lia.
        exact Hpre. }
      lia.
    + destruct (startswith old (c :: a)) eqn:E2.
      * rewrite (startswith_app_l _ (old ++ b) E2) in E. discriminate.
      * simpl. f_equal. apply (IH (length a)); [subst n; simpl; lia|reflexivity|].
        intros i Hi Hpre. specialize (Hocc (S i)). rewrite Hn in Hocc.
        simpl in Hocc. assert (S i + length old <= S (length a)); [|lia].
        apply Hocc; [lia|exact Hpre].
Qed.

End Replace.

(** ** Regular expressions: lemmas *)

Lemma match_here_lit (f : flags) (label : text) (re : regex) (s : text) :
  match_here f (map Lit label ++ re) s =
  match lit_prefix f label s with
  | Some t => match_here f re t
  | None => None
  end.
Proof.
  revert s. induction label as [|x label IH]; intros s; [reflexivity|].
  simpl. destruct s as [|c s]; [reflexivity|].
  destruct (lit_match f x c); [apply IH|reflexivity].
Qed.

Lemma lit_prefix_sound (f : flags) (label s t : text) :
  lit_prefix f label s = Some t -> exists lab, s = lab ++ t /\ spells f label lab.
Proof.
  revert s. induction label as [|x label IH]; intros s H; simpl in H.
  - injection H as <-. exists []. split; [reflexivity|constructor].
  - destruct s as [|c s]; [discriminate|].
    destruct (lit_match f x c) eqn:E; [|discriminate].
    destruct (IH _ H) as (lab & -> & Hlab).
    exists (c :: lab). split; [reflexivity|now constructor].
Qed.

Lemma lit_prefix_complete (f : flags) (label lab t : text) :
  spells f label lab -> lit_prefix f label (lab ++ t) = Some t.
Proof.
  intros H. induction H as [|x c label lab Hxc _ IH]; [reflexivity|].
  simpl. now rewrite Hxc.
Qed.

Lemma spells_length (f : flags) (label lab : text) :
  spells f label lab -> length lab = length label.
Proof. intros H. symmetry. exact (Forall2_length H). Qed.

(** Without IGNORECASE a label is spelled by itself only. *)
Lemma spells_exact (f : flags) (label lab : text) :
  IGNORECASE f = false -> spells f label lab -> lab = label.
Proof.
  intros Hf H. induction H as [|x c label lab Hxc _ IH]; [reflexivity|].
  unfold lit_match in Hxc. rewrite Hf in Hxc. apply ascii_eqb_eq in Hxc.
  now subst.
Qed.

Lemma spells_refl (f : flags) (label : text) : spells f label label.
Proof.
  induction label as [|x label IH]; constructor; [|exact IH].
  unfold lit_match. destruct (IGNORECASE f); apply ascii_eqb_refl.
Qed.

(** With IGNORECASE a label is spelled by the texts equal to it up to the
    case of their letters. *)
Lemma spells_ignorecase (f : flags) (label lab : text) :
  IGNORECASE f = true ->
  spells f label lab <-> map lower_char lab = map lower_char label.
Proof.
  intros Hf. split.
  - intros H. induction H as [|x c label lab Hxc _ IH]; [reflexivity|].
    unfold lit_match in Hxc. rewrite Hf in Hxc. apply ascii_eqb_eq in Hxc.
    simpl. now rewrite IH, Hxc.
  - revert lab. induction label as [|x label IH]; intros [|c lab] H;
      try discriminate; [constructor|].
    simpl in H. injection H as Hc Hl. constructor; [|now apply IH].
    unfold lit_match. rewrite Hf, Hc. apply ascii_eqb_refl.
Qed.

Section Repetition.

Variable p : ascii -> bool.

(** A group at the end of a pattern takes the longest run. *)
Lemma group_more_end (rest : text -> option text) (s : text) :
  (forall u, rest u = Some u) ->
  group_more p rest s = Some (take_while p s, drop_while p s).
Proof.
  intros Hrest. induction s as [|c s IH]; simpl.
  - now rewrite Hrest.
  - destruct (p c); [now rewrite IH|now rewrite Hrest].
Qed.

Lemma group_plus_end (rest : text -> option text) (s : text) :
  (forall u, rest u = Some u) ->
  group_plus p rest s =
  match take_while p s with
  | [] => None
  | tok => Some (tok, drop_while p s)
  end.
Proof.
  intros Hrest. destruct s as [|c s]; simpl; [reflexivity|].
  destruct (p c); [|reflexivity].
  now rewrite group_more_end.
Qed.

(** When what follows a repetition cannot start with a character of
    the class, giving characters back never helps. *)
Lemma group_more_disjoint (rest : text -> option text) (s : text) :
  (forall c u, p c = true -> rest (c :: u) = None) ->
  group_more p rest s =
  option_map (fun r => (take_while p s, r)) (rest (drop_while p s)).
Proof.
  intros Hrest. induction s as [|c s IH]; simpl; [reflexivity|].
  destruct (p c) eqn:E; [|reflexivity].
  rewrite IH. destruct (rest (drop_while p s)); simpl; [reflexivity|].
  now rewrite Hrest.
Qed.

Lemma group_plus_disjoint (rest : text -> option text) (s : text) :
  (forall c u, p c = true -> rest (c :: u) = None) ->
  group_plus p rest s =
  match take_while p s with
  | [] => None
  | tok => option_map (fun r => (tok, r)) (rest (drop_while p s))
  end.
Proof.
  intros Hrest. destruct s as [|c s]; simpl; [reflexivity|].
  destruct (p c); [|reflexivity].
  rewrite group_more_disjoint by assumption.
  destruct (rest (drop_while p s)); reflexivity.
Qed.

Lemma star_disjoint (rest : text -> matched) (s : text) :
  (forall c u, p c = true -> rest (c :: u) = None) ->
  star p rest s = rest (drop_while p s).
Proof.
  intros Hrest. induction s as [|c s IH]; simpl; [reflexivity|].
  destruct (p c) eqn:E; [|reflexivity].
  rewrite IH. destruct (rest (drop_while p s)) eqn:E2; [reflexivity|].
  now apply Hrest.
Qed.

(** When what follows takes any non-empty text whole, the starred class
    gives back at most its last character. *)
Lemma star_then_all (rest : text -> matched) (s : text) :
  rest [] = None ->
  (forall c u, rest (c :: u) = Some (c :: u, [])) ->
  s <> [] ->
  exists ws g, s = ws ++ g /\ forallb p ws = true /\ g <> [] /\
               star p rest s = Some (g, []).
Proof.
  intros Hnil Hall. induction s as [|c s IH]; intros Hne; [congruence|].
  simpl. destruct (p c) eqn:E.
  - destruct s as [|c' s].
    + simpl. rewrite Hnil, Hall. exists [], [c]. repeat split; congruence.
    + destruct IH as (ws & g & Hs & Hws & Hg & Hstar); [discriminate|].
      rewrite Hstar. exists (c :: ws), g. rewrite Hs. simpl. rewrite E, Hws.
      repeat split; assumption.
  - rewrite Hall. exists [], (c :: s). repeat split; congruence.
Qed.

End Repetition.

Section Search.

Variables (f : flags) (re : regex).

Lemma search_sound (s b g r : text) :
  search f re s = Some (b, g, r) ->
  exists m, s = b ++ m /\ match_here f re m = Some (g, r).
Proof.
  revert b. induction s as [|c s IH]; intros b H; cbn [search] in H.
  - destruct (match_here f re []) as [[g' r']|] eqn:E; [|discriminate].
    injection H as <- <- <-. now exists [].
  - destruct (match_here f re (c :: s)) as [[g' r']|] eqn:E.
    + injection H as <- <- <-. now exists (c :: s).
    + destruct (search f re s) as [[[b' g'] r']|]; [|discriminate].
      injection H as <- <- <-.
      destruct (IH b' eq_refl) as (m & -> & Hm). now exists m.
Qed.

(** No match starts before the one returned. *)
Lemma search_leftmost (s b g r : text) :
  search f re s = Some (b, g, r) ->
  forall b' m', s = b' ++ m' -> length b' < length b ->
                match_here f re m' = None.
Proof.
  revert b. induction s as [|c s IH]; intros b H b' m' Hs Hlt; cbn [search] in H.
  - destruct (match_here f re []) as [[g' r']|]; [|discriminate].
    injection H as <- <- <-. simpl in Hlt. lia.
  - destruct (match_here f re (c :: s)) as [[g' r']|] eqn:E.
    + injection H as <- <- <-. simpl in Hlt. lia.
    + destruct (search f re s) as [[[b0 g0] r0]|] eqn:E0; [|discriminate].
      injection H as <- <- <-.
      destruct b' as [|c' b'].
      * simpl in Hs. now subst m'.
      * injection Hs as -> ->. apply (IH b0 eq_refl b' m' eq_refl).
        simpl in Hlt. lia.
Qed.

Lemma search_none (s : text) :
  search f re s = None ->
  forall b' m', s = b' ++ m' -> match_here f re m' = None.
Proof.
  induction s as [|c s IH]; intros H b' m' Hs; cbn [search] in H.
  - destruct (match_here f re []) as [[g' r']|] eqn:E; [discriminate|].
    destruct b'; [|discriminate]. simpl in Hs. now subst m'.
  - destruct (match_here f re (c :: s)) as [[g' r']|] eqn:E; [discriminate|].
    destruct (search f re s) as [[[b0 g0] r0]|] eqn:E0; [discriminate|].
    destruct b' as [|c' b'].
    + simpl in Hs. now subst m'.
    + injection Hs as -> ->. now apply (IH eq_refl b' m').
Qed.

(** The match at the first place where the pattern matches is the one
    returned. *)
Lemma search_first (b m g r : text) :
  match_here f re m = Some (g, r) ->
  (forall b' m', b ++ m = b' ++ m' -> length b' < length b ->
                 match_here f re m' = None) ->
  search f re (b ++ m) = Some (b, g, r).
Proof.
  intros Hm. induction b as [|c b IH]; intros Hfirst.
  - simpl. destruct m; cbn [search]; now rewrite Hm.
  - cbn [app search].
    rewrite (Hfirst [] (c :: b ++ m) eq_refl) by (simpl; lia).
    rewrite IH; [reflexivity|].
    intros b' m' Hs Hlt. apply (Hfirst (c :: b') m').
    + simpl. now rewrite Hs.
    + simpl. lia.
Qed.

End Search.





(** ** The response parser: which sections are kept *)

Lemma accepted_iff (r : resource) :
  accepted r = true <-> title r <> [] /\ full_content r <> [].
Proof.
  unfold accepted, truthy. rewrite andb_true_iff.
  destruct (title r), (full_content r); split; intros [H1 H2];
    try discriminate; try congruence; split; (reflexivity || discriminate).
Qed.

Lemma parse_section_fields (section : text) (dc dc' : Z) :
  title (fst (parse_section section dc)) = title (fst (parse_section section dc')) /\
  full_content (fst (parse_section section dc)) =
  full_content (fst (parse_section section dc')) /\
  password (fst (parse_section section dc)) = parse_password section /\
  full_content (fst (parse_section section dc)) = parse_full_content section.
Proof.
  unfold parse_section.
  destruct (group1 (search ignorecase day_pattern section)); simpl; auto.
Qed.



(** C1, at the input the code keeps: a section with a title and no
    FULL_CONTENT label is appended to the result, carrying the sentinel
    text as its full content. *)
Theorem parse_keeps_sentinel_section :
  parse_claude_response (str "TITLE: Salary Math") 11 =
  [ {| day := 11;
       category := str "Career";
       title := str "Salary Math";
       hook := [];
       description := [];
       key_points := [];
       password := str "ACCESS";
       full_content := content_not_found |} ].
Proof. vm_compute. reflexivity. Qed.




(** The checked body of the loop raises on an over-long DAY field and is
    the body of the loop otherwise. *)
Lemma parse_section_checked_spec (section : text) (dc : Z) :
  parse_section_checked section dc =
  if day_overlong section then None else Some (parse_section section dc).
Proof.
  unfold parse_section_checked, parse_section, day_overlong, int_checked.
  destruct (group1 (search ignorecase day_pattern section)) as [g|]; [|reflexivity].
  destruct (int_raises g); reflexivity.
Qed.






(** ** The response parser: day numbers *)

Lemma parse_sections_records (sections : list text) (dc : Z) :
  parse_sections sections dc =
  filter accepted (map snd (section_records sections dc)).
Proof.
  revert dc. induction sections as [|s rest IH]; intros dc; [reflexivity|].
  cbn [parse_sections section_records].
  destruct (blank s); [apply IH|].
  destruct (parse_section s dc) as [r dc']. cbn [map snd filter].
  destruct (accepted r); now rewrite IH.
Qed.

Lemma consecutive_S (d : Z) (n : nat) :
  consecutive d (S n) = d :: consecutive (d + 1) n.
Proof.
  unfold consecutive. cbn [seq map]. f_equal; [lia|].
  rewrite <- seq_shift, map_map. apply map_ext. intros i. lia.
Qed.

Lemma consecutive_above (d : Z) (n : nat) :
  Forall (fun x => (d <= x)%Z) (consecutive d n).
Proof.
  unfold consecutive. apply Forall_forall. intros x Hx.
  apply in_map_iff in Hx. destruct Hx as (i & <- & _). lia.
Qed.

Lemma consecutive_sorted (d : Z) (n : nat) :
  StronglySorted Z.lt (consecutive d n).
Proof.
  revert d. induction n as [|n IH]; intros d; [constructor|].
  rewrite consecutive_S. constructor; [apply IH|].
  eapply Forall_impl; [|apply (consecutive_above (d + 1) n)].
  simpl. intros x Hx. lia.
Qed.

Lemma consecutive_nodup (d : Z) (n : nat) : NoDup (consecutive d n).
Proof.
  revert d. induction n as [|n IH]; intros d; [constructor|].
  rewrite consecutive_S. constructor; [|apply IH].
  intros Hin. pose proof (consecutive_above (d + 1) n) as Ha.
  rewrite Forall_forall in Ha. specialize (Ha _ Hin). lia.
Qed.

Lemma fallback_records_consecutive (sections : list text) (dc : Z) :
  let fb := map (fun sr => day (snd sr))
                (filter (fun sr => negb (has_day_field (fst sr)))
                        (section_records sections dc)) in
  fb = consecutive dc (length fb).
Proof.
  revert dc. induction sections as [|s rest IH]; intros dc; [reflexivity|].
  cbn [section_records]. destruct (blank s); [apply IH|].
  unfold parse_section, has_day_field at 1.
  destruct (search ignorecase day_pattern s) as [[[b g] r]|] eqn:E;
    cbn [group1 filter fst snd negb map].
  - unfold has_day_field at 1. rewrite E. cbn [negb]. apply IH.
  - unfold has_day_field at 1. rewrite E. cbn [negb map snd day length].
    rewrite consecutive_S. f_equal. apply IH.
Qed.

(** C3, as the code has it: the days given from the counter are
    start_day, start_day + 1, ... in section order, one per non-blank
    section without a DAY field, so they increase strictly and none is
    given twice; the records returned are those of the kept sections. *)
Theorem fallback_days_consecutive (content : text) (start_day : Z) :
  fallback_days content start_day =
    consecutive start_day (length (fallback_days content start_day)) /\
  StronglySorted Z.lt (fallback_days content start_day) /\
  NoDup (fallback_days content start_day) /\
  parse_claude_response content start_day =
    filter accepted (map snd (section_records (split delimiter content) start_day)).
Proof.
  pose proof (fallback_records_consecutive (split delimiter content) start_day) as H.
  cbv zeta in H. fold (fallback_days content start_day) in H.
  repeat split.
  - exact H.
  - rewrite H. apply consecutive_sorted.
  - rewrite H. apply consecutive_nodup.
  - apply parse_sections_records.
Qed.

(** C3, as stated, fails: with start_day = 11 the second section, which has
    no DAY field, is given day 11, the day the first section supplied. *)
Lemma fallback_day_collides :
  map has_day_field (split delimiter colliding_response) = [true; false] /\
  map day (parse_claude_response colliding_response 11) = [11%Z; 11%Z] /\
  fallback_days colliding_response 11 = [11%Z] /\
  ~ NoDup (map day (parse_claude_response colliding_response 11)).
Proof.
  repeat split; try (vm_compute; reflexivity).
  intros H. vm_compute in H. inversion H as [|x l Hin _]; subst.
  apply Hin. now left.
Qed.

(** ** File names and cards *)

Lemma title_in_filename (t : text) :
  replace (str "/") (str "_") (replace (str " ") (str "_") t) = map underscore t.
Proof.
  change (str "/") with ["/"%char]. change (str " ") with [" "%char].
  change (str "_") with ["_"%char].
  rewrite !replace_char, map_map. apply map_ext. intros c.
  unfold underscore. destruct (ascii_eqb c " ") eqn:E; [reflexivity|].
  simpl. reflexivity.
Qed.

(** C2: the name under which the PDF is generated and the name entered
    into the pdfFiles table are the same text, Day_<day>_<title>.pdf with
    every space and slash of the title turned into an underscore; the
    table's line for the resource carries that name. *)
Theorem pdf_filename_agrees (r : resource) :
  create_professional_pdf_filename r = pdf_filename r /\
  pdf_filename r =
    str "Day_" ++ str_of_int (day r) ++ str "_" ++ map underscore (title r)
    ++ str ".pdf" /\
  new_pdf_entries [r] =
    [indent 12 ++ str "day" ++ str_of_int (day r) ++ str ": '"
     ++ create_professional_pdf_filename r ++ str "'"].
Proof.
  split; [reflexivity|]. split.
  - unfold pdf_filename. now rewrite title_in_filename.
  - unfold new_pdf_entries, table_entry, day_key. cbn [map].
    rewrite <- !app_assoc. reflexivity.
Qed.

Example pdf_filename_salary_math (r : resource) :
  day r = 7%Z -> title r = str "Salary Math" ->
  create_professional_pdf_filename r = str "Day_7_Salary_Math.pdf" /\
  pdf_filename r = str "Day_7_Salary_Math.pdf".
Proof.
  intros Hd Ht. unfold create_professional_pdf_filename, pdf_filename.
  rewrite Hd, Ht. split; reflexivity.
Qed.

Lemma gradient_index_in_range (d : Z) : gradient_index d < length gradients.
Proof.
  unfold gradient_index. change (length gradients) with 10.
  pose proof (Z.mod_pos_bound (d - 1) 10). simpl Z.of_nat. lia.
Qed.

(** C9: the gradient of a card is the element of the ten-element list at
    index (day - 1) mod 10, an index within the list; resources with the
    same day get the same gradient whatever their other fields are. *)
Theorem card_gradient_by_day (r r' : resource) :
  day r = day r' ->
  card_gradient r = card_gradient r' /\
  card_gradient r = nth (Z.to_nat ((day r - 1) mod 10)) gradients [] /\
  Z.to_nat ((day r - 1) mod 10) < length gradients /\
  length gradients = 10 /\
  In (card_gradient r) gradients /\
  create_card_html r = card_head r ++ card_gradient r ++ card_tail r.
Proof.
  intros Hd.
  split; [unfold card_gradient; now rewrite Hd|].
  split; [reflexivity|].
  split; [apply (gradient_index_in_range (day r))|].
  split; [reflexivity|].
  split; [apply nth_In, gradient_index_in_range|reflexivity].
Qed.

Lemma card_gradient_by_day_witness :
  card_gradient (sample_resource 13 "Career" "Ask For More") =
  card_gradient (sample_resource 13 "Interview" "Mirror Tactic") /\
  card_gradient (sample_resource 13 "Career" "Ask For More") =
  str "linear-gradient(135deg, #00f2ea, #3a86ff)".
Proof.
  split.
  - apply (card_gradient_by_day (sample_resource 13 "Career" "Ask For More")
                                (sample_resource 13 "Interview" "Mirror Tactic")).
    reflexivity.
  - reflexivity.
Defined.

(** ** The run of the merger *)

(** C5: when the dashboard document has no days-grid container, the call
    writes nothing, so every file is as before, and it does not report
    success: it returns False whenever new_content.json is absent or
    loads. *)
Theorem update_dashboard_without_grid
  (soup tag : Type) (BeautifulSoup : text -> soup)
  (find_days_grid : soup -> option tag) (append : soup -> tag -> soup -> soup)
  (soup_str prettify : soup -> text)
  (load_resources : text -> option (list resource))
  (fs : files) (document : text) :
  fs "index.html"%string = Some document ->
  find_days_grid (BeautifulSoup document) = None ->
  let run := update_dashboard soup tag BeautifulSoup find_days_grid append
                              soup_str prettify load_resources fs in
  snd run = fs /\
  fst run <> Returned true /\
  (match fs "new_content.json"%string with
   | Some json => load_resources json <> None
   | None => True
   end -> fst run = Returned false).
Proof.
  intros Hdoc Hgrid. unfold update_dashboard.
  destruct (fs "new_content.json"%string) as [json|]; simpl.
  - destruct (load_resources json) as [rs|]; simpl.
    + rewrite Hdoc, Hgrid. simpl. repeat split; congruence.
    + repeat split; congruence.
  - repeat split; congruence.
Qed.

Lemma update_dashboard_without_grid_witness :
  update_dashboard text unit (fun s => s) flat_find_days_grid flat_append
                   (fun s => s) (fun s => s) no_resources sample_files
  = (Returned false, sample_files).
Proof.
  destruct (update_dashboard_without_grid text unit (fun s => s)
              flat_find_days_grid flat_append (fun s => s) (fun s => s)
              no_resources sample_files (str "<html><body></body></html>")
              eq_refl eq_refl) as (Hfs & _ & Hret).
  apply injective_projections; [apply Hret; simpl; discriminate|exact Hfs].
Defined.

(** ** The password field *)

Lemma take_drop_while_run (p : ascii -> bool) (a b : text) :
  forallb p a = true ->
  match b with [] => True | c :: _ => p c = false end ->
  take_while p (a ++ b) = a /\ drop_while p (a ++ b) = b.
Proof.
  intros Ha Hb. induction a as [|c a IH]; simpl.
  - destruct b as [|c b]; [now split|]. simpl. now rewrite Hb.
  - simpl in Ha. apply andb_true_iff in Ha. destruct Ha as [Hc Ha].
    rewrite Hc. destruct (IH Ha) as [-> ->]. now split.
Qed.




Lemma labelled_token_shift (label : text) (p : ascii -> bool)
  (b m tok after : text) :
  labelled_token label p m [] tok after ->
  labelled_token label p (b ++ m) b tok after.
Proof.
  intros (lab & ws & -> & H). exists lab, ws. split; [reflexivity|exact H].
Qed.








Example password_examples :
  parse_password (str "Password: focus now") = str "FOCUS" /\
  parse_password (str "PASSWORD: !! password:   Deal_9") = str "DEAL_9" /\
  parse_password (str "PASSWORD: ???") = str "ACCESS".
Proof. repeat split. Qed.

(** ** The full content *)

Lemma lit_prefix_flags (f f' : flags) (label s : text) :
  IGNORECASE f = IGNORECASE f' -> lit_prefix f label s = lit_prefix f' label s.
Proof.
  intros Hf. revert s. induction label as [|x label IH]; intros s; [reflexivity|].
  simpl. destruct s as [|c s]; [reflexivity|].
  unfold lit_match. rewrite Hf, IH. reflexivity.
Qed.

Lemma match_here_label (f : flags) (label s : text) :
  match_here f (map Lit label) s =
  option_map (fun t => ([], t)) (lit_prefix f label s).
Proof.
  rewrite <- (app_nil_r (map Lit label)), match_here_lit.
  destruct (lit_prefix f label s); reflexivity.
Qed.

(** A label found by itself is where a pattern starting with the label
    matches first, when the rest of the pattern matches what follows. *)
Lemma search_behind_label (f f' : flags) (label : text) (re : regex)
  (s b g a g' r' : text) :
  IGNORECASE f = IGNORECASE f' ->
  search f (map Lit label) s = Some (b, g, a) ->
  match_here f' re a = Some (g', r') ->
  search f' (map Lit label ++ re) s = Some (b, g', r').
Proof.
  intros Hf Hs Hre.
  destruct (search_sound _ _ _ _ _ _ Hs) as (m & -> & Hm).
  rewrite match_here_label in Hm.
  destruct (lit_prefix f label m) as [t|] eqn:El; [|discriminate].
  injection Hm as <- <-.
  apply search_first.
  - rewrite match_here_lit, <- (lit_prefix_flags f f') by assumption.
    now rewrite El.
  - intros b' m' Hbm Hlt.
    pose proof (search_leftmost _ _ _ _ _ _ Hs b' m' Hbm Hlt) as Hnone.
    rewrite match_here_label in Hnone.
    rewrite match_here_lit, <- (lit_prefix_flags f f') by assumption.
    destruct (lit_prefix f label m'); [discriminate|reflexivity].
Qed.

Lemma find_label_sound (label : string) (s before after : text) :
  find_label label s = Some (before, after) ->
  exists lab, s = before ++ lab ++ after /\
              map lower_char lab = map lower_char (str label).
Proof.
  unfold find_label, lit. intros H.
  destruct (search ignorecase (map Lit (str label)) s) as [[[b g] a]|] eqn:E;
    [|discriminate].
  injection H as -> ->.
  destruct (search_sound _ _ _ _ _ _ E) as (m & -> & Hm).
  rewrite match_here_label in Hm.
  destruct (lit_prefix ignorecase (str label) m) as [t|] eqn:El; [|discriminate].
  injection Hm as _ <-.
  destruct (lit_prefix_sound _ _ _ _ El) as (lab & -> & Hlab).
  exists lab. split; [reflexivity|].
  now apply (spells_ignorecase ignorecase _ _ eq_refl).
Qed.

Lemma take_while_everything (p : ascii -> bool) (s : text) :
  (forall c, p c = true) -> take_while p s = s /\ drop_while p s = [].
Proof.
  intros Hp. induction s as [|c s [IH1 IH2]]; simpl; [now split|].
  rewrite Hp, IH1, IH2. now split.
Qed.

(** With DOTALL the group [(.+)] takes all of a non-empty text. *)
Lemma group_dotall (s : text) :
  match_here ignorecase_dotall [Group Dot] s =
  match s with
  | [] => None
  | _ :: _ => Some (s, [])
  end.
Proof.
  cbn [match_here]. rewrite group_plus_end by reflexivity.
  destruct (take_while_everything (cls_match ignorecase_dotall Dot) s) as [-> ->];
    [reflexivity|].
  destruct s; reflexivity.
Qed.

(** Behind the label, [\s*(.+)] under DOTALL captures the text without
    its leading white space, or the last white-space character when
    nothing else follows. *)
Lemma full_content_group (t : text) :
  t <> [] ->
  exists ws g, t = ws ++ g /\ forallb is_space ws = true /\
    match_here ignorecase_dotall [Star Space; Group Dot] t = Some (g, []).
Proof.
  intros Hne. cbn [match_here].
  destruct (star_then_all (cls_match ignorecase_dotall Space)
              (match_here ignorecase_dotall [Group Dot]) t)
    as (ws & g & Ht & Hws & _ & Hstar).
  - apply group_dotall.
  - intros c u. apply group_dotall.
  - exact Hne.
  - exists ws, g. repeat split; assumption.
Qed.

Lemma line_pattern_label (label : text) :
  line_pattern label = map Lit (label ++ [":"%char]) ++ [Star Space; Group Dot].
Proof. unfold line_pattern. now rewrite map_app, <- app_assoc. Qed.

Lemma lit_prefix_short (f : flags) (label s : text) :
  length s < length label -> lit_prefix f label s = None.
Proof.
  revert s. induction label as [|x label IH]; intros s H; [simpl in H; lia|].
  destruct s as [|c s]; [reflexivity|]. simpl in *.
  destruct (lit_match f x c); [apply IH; lia|reflexivity].
Qed.

Lemma search_none_intro (f : flags) (re : regex) (s : text) :
  (forall b' m', s = b' ++ m' -> match_here f re m' = None) ->
  search f re s = None.
Proof.
  induction s as [|c s IH]; intros H; cbn [search].
  - now rewrite (H [] [] eq_refl).
  - rewrite (H [] (c :: s) eq_refl), IH; [reflexivity|].
    intros b' m' Hs. apply (H (c :: b') m'). simpl. now rewrite Hs.
Qed.

Lemma app_same_length (a a' b b' : text) :
  a ++ b = a' ++ b' -> length a = length a' -> a = a' /\ b = b'.
Proof.
  revert a'. induction a as [|x a IH]; intros [|x' a'] H Hl;
    try discriminate; [now split|].
  simpl in *. injection H as -> H. injection Hl as Hl.
  destruct (IH _ H Hl) as [-> ->]. now split.
Qed.

(** A label with nothing behind it does not start a match of a pattern
    that needs a character after the label. *)
Lemma search_label_at_end (f f' : flags) (label : text) (re : regex)
  (s b g : text) :
  IGNORECASE f = IGNORECASE f' ->
  search f (map Lit label) s = Some (b, g, []) ->
  match_here f' re [] = None ->
  search f' (map Lit label ++ re) s = None.
Proof.
  intros Hf Hs Hre.
  destruct (search_sound _ _ _ _ _ _ Hs) as (m & Hsm & Hm).
  rewrite match_here_label in Hm.
  destruct (lit_prefix f label m) as [t|] eqn:El; [|discriminate].
  injection Hm as _ ->.
  destruct (lit_prefix_sound _ _ _ _ El) as (lab & Hmlab & Hlab).
  rewrite app_nil_r in Hmlab. subst m.
  apply spells_length in Hlab.
  apply search_none_intro. intros b' m' Hbm.
  rewrite match_here_lit, <- (lit_prefix_flags f f') by assumption.
  destruct (lt_eq_lt_dec (length b') (length b)) as [[Hlt|Heq]|Hgt].
  - pose proof (search_leftmost _ _ _ _ _ _ Hs b' m' Hbm Hlt) as Hnone.
    rewrite match_here_label in Hnone.
    destruct (lit_prefix f label m'); [discriminate|reflexivity].
  - rewrite Hsm in Hbm. symmetry in Heq.
    destruct (app_same_length _ _ _ _ Hbm Heq) as [_ <-].
    now rewrite El.
  - rewrite lit_prefix_short; [reflexivity|].
    assert (Hlen : length (b' ++ m') = length (b ++ lab)) by now rewrite <- Hbm, Hsm.
    rewrite !length_app in Hlen. lia.
Qed.

(** C6, as the code has it: when text follows the first FULL_CONTENT:
    label of a section, the full content is that text up to the next
    delimiter or the end of the section, without its leading and trailing
    white space; when the section ends with the label, it is the
    sentinel. *)
Theorem full_content_after_label (section : text) (day_counter : Z)
  (before after : text) :
  find_label "FULL_CONTENT:" section = Some (before, after) ->
  full_content (fst (parse_section section day_counter)) =
    match after with
    | [] => content_not_found
    | _ :: _ => strip (first_piece delimiter after)
    end /\
  first_piece delimiter after = hd [] (split delimiter after) /\
  exists lab, section = before ++ lab ++ after /\
              map lower_char lab = str "full_content:".
Proof.
  intros Hfind.
  split; [|split; [symmetry; apply hd_split; discriminate
                  |exact (find_label_sound _ _ _ _ Hfind)]].
  destruct (parse_section_fields section day_counter 0) as (_ & _ & _ & ->).
  unfold parse_full_content, find_label, lit in *.
  destruct (search ignorecase (map Lit (str "FULL_CONTENT:")) section)
    as [[[b g0] a]|] eqn:E; [|discriminate].
  injection Hfind as -> ->.
  rewrite line_pattern_label.
  change (str "FULL_CONTENT" ++ [":"%char]) with (str "FULL_CONTENT:").
  destruct after as [|c after'].
  - rewrite (search_label_at_end ignorecase ignorecase_dotall _
               [Star Space; Group Dot] _ _ _ eq_refl E eq_refl).
    reflexivity.
  - destruct (full_content_group (c :: after')) as (ws & g & Ht & Hws & Hm);
      [discriminate|].
    rewrite (search_behind_label ignorecase ignorecase_dotall _ _ _ _ _ _ _ _
               eq_refl E Hm).
    cbn [group1]. rewrite hd_split by discriminate.
    assert (Hstrip : strip g = strip (c :: after')).
    { rewrite Ht. symmetry. now apply strip_by_all_left. }
    rewrite Hstrip. unfold strip.
    apply (strip_first_piece is_space "-"%char (str "--")). reflexivity.
Qed.

Lemma full_content_after_label_witness :
  full_content (fst (parse_section full_content_section 11)) =
  str "Line one" ++ nl ++ nl ++ str "Line two".
Proof.
  destruct (full_content_after_label full_content_section 11
              (str "TITLE: Ask" ++ nl)
              (nl ++ str "Line one" ++ nl ++ nl ++ str "Line two" ++ nl)
              eq_refl) as (H & _).
  rewrite H. vm_compute. reflexivity.
Defined.

(** C6, as stated, fails: the text after the label starts and ends with a
    line feed, and the full content does not. *)
Lemma full_content_is_trimmed :
  find_label "FULL_CONTENT:" full_content_section =
    Some (str "TITLE: Ask" ++ nl,
          nl ++ str "Line one" ++ nl ++ nl ++ str "Line two" ++ nl) /\
  first_piece delimiter (nl ++ str "Line one" ++ nl ++ nl ++ str "Line two" ++ nl) =
    nl ++ str "Line one" ++ nl ++ nl ++ str "Line two" ++ nl /\
  full_content (fst (parse_section full_content_section 11)) =
    str "Line one" ++ nl ++ nl ++ str "Line two" /\
  full_content (fst (parse_section full_content_section 11)) <>
    first_piece delimiter (nl ++ str "Line one" ++ nl ++ nl ++ str "Line two" ++ nl).
Proof.
  split; [reflexivity|]. split; [reflexivity|]. split; [reflexivity|].
  vm_compute. discriminate.
Qed.

Example full_content_edge_cases :
  parse_full_content (str "TITLE: A FULL_CONTENT:") = content_not_found /\
  parse_full_content (str "full_content: a --- b") = str "a" /\
  parse_full_content (str "FULL_CONTENT:  ") = [].
Proof. repeat split. Qed.

Lemma find_label_first (label : string) (s before after : text) :
  find_label label s = Some (before, after) ->
  forall b' lab' a',
    s = b' ++ lab' ++ a' ->
    map lower_char lab' = map lower_char (str label) ->
    length before <= length b'.
Proof.
  unfold find_label, lit. intros H b' lab' a' Hs Hlab.
  destruct (search ignorecase (map Lit (str label)) s) as [[[b g] a]|] eqn:E;
    [|discriminate].
  injection H as -> ->.
  destruct (le_lt_dec (length before) (length b')) as [Hle|Hlt]; [exact Hle|exfalso].
  pose proof (search_leftmost _ _ _ _ _ _ E b' _ Hs Hlt) as Hnone.
  rewrite match_here_label, lit_prefix_complete in Hnone; [discriminate|].
  now apply (spells_ignorecase ignorecase _ _ eq_refl).
Qed.

(** ** The keyed tables *)

Section SplitJoin.

Variables (old new : text).
Hypothesis old_nonempty : old <> [].

Lemma split_nonempty (s : text) : split old s <> [].
Proof.
  rewrite split_unfold by assumption.
  destruct (find old s) as [[a b]|]; discriminate.
Qed.

Lemma join_cons (sep a : text) (l : list text) :
  l <> [] -> join sep (a :: l) = a ++ sep ++ join sep l.
Proof. destruct l; [congruence|reflexivity]. Qed.

Lemma replace_at_find (s a b : text) :
  find old s = Some (a, b) -> replace old new s = a ++ new ++ replace old new b.
Proof.
  revert a b. induction s as [|c s IH]; intros a b H.
  - rewrite find_nil in H by assumption. discriminate.
  - rewrite replace_unfold by assumption. cbn [find] in H.
    destruct (startswith old (c :: s)).
    + injection H as <- <-. reflexivity.
    + destruct (find old s) as [[a' b']|]; [|discriminate].
      injection H as <- <-. simpl. f_equal. now apply IH.
Qed.

(** [s.replace(old, new)] is [new.join(s.split(old))]. *)
Lemma replace_join_split (s : text) :
  replace old new s = join new (split old s).
Proof.
  remember (length s) as n eqn:Hn. revert s Hn.
  induction n as [n IH] using lt_wf_ind. intros s Hn.
  rewrite split_unfold by assumption.
  destruct (find old s) as [[a b]|] eqn:E.
  - rewrite (replace_at_find _ _ _ E), join_cons by apply split_nonempty.
    pose proof (find_shorter _ _ _ _ old_nonempty E) as Hl.
    rewrite (IH (length b)); [reflexivity|lia|reflexivity].
  - simpl. now apply replace_none.
Qed.

(** [old.join(s.split(old))] is [s]. *)
Lemma join_split (s : text) : join old (split old s) = s.
Proof.
  remember (length s) as n eqn:Hn. revert s Hn.
  induction n as [n IH] using lt_wf_ind. intros s Hn.
  rewrite split_unfold by assumption.
  destruct (find old s) as [[a b]|] eqn:E; [|reflexivity].
  rewrite join_cons by apply split_nonempty.
  pose proof (find_shorter _ _ _ _ old_nonempty E) as Hl.
  rewrite (IH (length b)); [|lia|reflexivity].
  symmetry. now apply find_some.
Qed.

End SplitJoin.

Lemma table_pattern_head (name : string) :
  table_pattern name =
  map Lit (table_head name) ++ Group (NotChar "}"%char) :: lit "};".
Proof.
  unfold table_pattern, table_head, lit. now rewrite !map_app, <- !app_assoc.
Qed.

(** The pattern of a table at the start of a text: the head of the
    declaration, the longest non-empty run without a closing brace, and
    the closing brace with its semicolon. *)
Lemma match_table (name : string) (s : text) :
  match_here dotall (table_pattern name) s =
  match lit_prefix dotall (table_head name) s with
  | None => None
  | Some t =>
      match take_while not_brace t with
      | [] => None
      | cur => option_map (fun r => (cur, r))
                          (lit_prefix dotall (str "};") (drop_while not_brace t))
      end
  end.
Proof.
  rewrite table_pattern_head, match_here_lit.
  destruct (lit_prefix dotall (table_head name) s) as [t|]; [|reflexivity].
  cbn [match_here]. rewrite group_plus_disjoint.
  - change (cls_match dotall (NotChar "}"%char)) with not_brace.
    destruct (take_while not_brace t); [reflexivity|].
    unfold lit. rewrite match_here_label.
    destruct (lit_prefix dotall (str "};") (drop_while not_brace t)); reflexivity.
  - intros c u Hc. unfold lit. rewrite match_here_label.
    cbn [cls_match] in Hc.
    change (str "};") with ["}"%char; ";"%char]. cbn [lit_prefix].
    unfold lit_match. cbn [IGNORECASE dotall].
    destruct (ascii_eqb "}"%char c) eqn:E; [|reflexivity].
    apply ascii_eqb_eq in E. subst c. discriminate Hc.
Qed.

Lemma lit_prefix_exact (label s t : text) :
  lit_prefix dotall label s = Some t -> s = label ++ t.
Proof.
  intros H. destruct (lit_prefix_sound _ _ _ _ H) as (lab & -> & Hlab).
  now rewrite (spells_exact dotall _ _ eq_refl Hlab).
Qed.

Lemma search_table (name : string) (html before current after : text) :
  search dotall (table_pattern name) html = Some (before, current, after) ->
  html = before ++ table_head name ++ current ++ str "};" ++ after /\
  current <> [] /\ forallb not_brace current = true.
Proof.
  intros H. destruct (search_sound _ _ _ _ _ _ H) as (m & -> & Hm).
  rewrite match_table in Hm.
  destruct (lit_prefix dotall (table_head name) m) as [t|] eqn:El; [|discriminate].
  apply lit_prefix_exact in El. subst m.
  pose proof (take_drop_while not_brace t) as Ht.
  pose proof (forallb_take_while not_brace t) as Hf.
  destruct (take_while not_brace t) as [|c cur]; [discriminate|].
  destruct (lit_prefix dotall (str "};") (drop_while not_brace t)) as [r|] eqn:Er;
    [|discriminate].
  injection Hm as <- <-.
  apply lit_prefix_exact in Er. rewrite Er in Ht.
  split; [now rewrite Ht|]. split; [discriminate|exact Hf].
Qed.

(** An occurrence of a text that ends with its only closing brace cannot
    run into a later occurrence of the same text. *)
Lemma occurrence_ends_before (body a rest : text) (i : nat) :
  forallb not_brace body = true ->
  i < length a ->
  startswith (body ++ ["}"%char])
             (skipn i (a ++ (body ++ ["}"%char]) ++ rest)) = true ->
  i + length (body ++ ["}"%char]) <= length a.
Proof.
  intros Hb Hi Hs.
  destruct (le_lt_dec (i + length (body ++ ["}"%char])) (length a)) as [Hle|Hlt];
    [exact Hle|exfalso].
  rewrite length_app in Hlt. simpl in Hlt.
  apply startswith_true in Hs.
  assert (Hn : nth_error (skipn i (a ++ (body ++ ["}"%char]) ++ rest)) (length body)
               = Some "}"%char).
  { rewrite Hs, <- app_assoc, nth_error_app2 by lia.
    now rewrite Nat.sub_diag. }
  rewrite nth_error_skipn, nth_error_app2 in Hn by lia.
  rewrite <- app_assoc, nth_error_app1 in Hn by lia.
  apply nth_error_In in Hn.
  rewrite forallb_forall in Hb. specialize (Hb _ Hn). discriminate Hb.
Qed.

Lemma table_literal_head (name : string) (current : text) :
  table_literal name current = (table_head name ++ current) ++ ["}"%char].
Proof.
  unfold table_literal, table_head. now rewrite <- !app_assoc.
Qed.

(** The declaration found is rewritten where it was found, and the texts
    before and after it are rewritten on their own. *)
Lemma update_table_at (name : string) (entries : list text)
  (html before current after : text) :
  forallb not_brace (table_head name) = true ->
  search dotall (table_pattern name) html = Some (before, current, after) ->
  let old := table_literal name current in
  let new := new_table_literal name (updated_table current entries) in
  html = before ++ old ++ str ";" ++ after /\
  update_table name entries html =
    replace old new before ++ new ++ str ";" ++ replace old new after.
Proof.
  intros Hhead E old new.
  destruct (search_table _ _ _ _ _ E) as (Hhtml & Hne & Hcur).
  assert (Hdoc : html = before ++ old ++ str ";" ++ after).
  { rewrite Hhtml. unfold old. rewrite table_literal_head, <- !app_assoc.
    reflexivity. }
  split; [exact Hdoc|].
  unfold update_table. rewrite E. cbn [group1]. fold old new.
  assert (Hold : old <> []).
  { unfold old. rewrite table_literal_head. now destruct (table_head name ++ current). }
  rewrite Hdoc at 1. rewrite (replace_at_occurrence old new Hold).
  - rewrite (replace_unfold old new Hold (str ";" ++ after)).
    assert (Hsemi : startswith old (str ";" ++ after) = false).
    { unfold old, table_literal. reflexivity. }
    rewrite Hsemi. reflexivity.
  - intros i Hi Hs. unfold old in *. rewrite table_literal_head in *.
    apply (occurrence_ends_before _ _ (str ";" ++ after)); [|exact Hi|exact Hs].
    rewrite forallb_app, Hhead. exact Hcur.
Qed.

Lemma forallb_weaken (p q : ascii -> bool) (s : text) :
  (forall c, p c = true -> q c = true) -> forallb p s = true -> forallb q s = true.
Proof.
  intros Hpq. induction s as [|c s IH]; simpl; [reflexivity|].
  intros H. apply andb_true_iff in H. destruct H as [Hc Hs].
  now rewrite (Hpq c Hc), IH.
Qed.

(** What the update leaves of a table: all of it but the separators at
    its end. *)
Lemma kept_of_table (current : text) :
  exists trailing,
    current = rstrip_commas (rstrip current) ++ trailing /\
    forallb is_separator trailing = true.
Proof.
  destruct (rstrip_by_decomp is_space current) as (ws & Hws & Hsp).
  destruct (rstrip_by_decomp is_comma (rstrip current)) as (cs & Hcs & Hco).
  exists (cs ++ ws). split.
  - rewrite app_assoc. unfold rstrip_commas, rstrip in *. now rewrite <- Hcs.
  - rewrite forallb_app. apply andb_true_iff. split.
    + apply (forallb_weaken is_comma); [|exact Hco].
      intros c Hc. unfold is_separator. now rewrite Hc.
    + apply (forallb_weaken is_space); [|exact Hsp].
      intros c Hc. unfold is_separator. rewrite Hc. apply orb_true_r.
Qed.

(** C4: when the passwords declaration is found, the updated document
    has, where the declaration was, the table's former text without the
    separators at its end, then one line dayN: 'password' per resource,
    in the order of the resources. *)
Theorem update_passwords_js_appends (html_content : text)
  (resources : list resource) (before current after : text) :
  search dotall password_pattern html_content = Some (before, current, after) ->
  let old := table_literal "passwords" current in
  let new := new_table_literal "passwords"
               (updated_table current (new_password_entries resources)) in
  let kept := rstrip_commas (rstrip current) in
  html_content =
    before ++ str "const passwords = {" ++ current ++ str "};" ++ after /\
  (exists trailing,
      current = kept ++ trailing /\ forallb is_separator trailing = true) /\
  update_passwords_js html_content resources =
    replace old new before
    ++ str "const passwords = {" ++ nl
    ++ kept ++ str "," ++ nl
    ++ join (str "," ++ nl)
         (map (fun r => indent 12 ++ str "day" ++ str_of_int (day r)
                        ++ str ": '" ++ password r ++ str "'") resources)
    ++ nl ++ indent 8 ++ str "};"
    ++ replace old new after.
Proof.
  intros E old new kept.
  destruct (search_table _ _ _ _ _ E) as (Hhtml & _ & _).
  destruct (update_table_at "passwords" (new_password_entries resources)
              _ _ _ _ eq_refl E) as (_ & Hres).
  split; [exact Hhtml|]. split; [apply kept_of_table|].
  unfold update_passwords_js. rewrite Hres. fold old new. f_equal.
  assert (Hnew : new =
            str "const passwords = {" ++ nl ++ kept ++ str "," ++ nl
            ++ join (str "," ++ nl)
                 (map (fun r => indent 12 ++ str "day" ++ str_of_int (day r)
                                ++ str ": '" ++ password r ++ str "'") resources)
            ++ nl ++ indent 8 ++ str "}").
  { unfold new, new_table_literal, updated_table. fold kept.
    assert (Hentries : new_password_entries resources =
              map (fun r => indent 12 ++ str "day" ++ str_of_int (day r)
                            ++ str ": '" ++ password r ++ str "'") resources).
    { unfold new_password_entries, table_entry, day_key.
      apply map_ext. intros r. now rewrite <- !app_assoc. }
    rewrite Hentries, <- !app_assoc. reflexivity. }
  rewrite Hnew at 1. rewrite <- !app_assoc. reflexivity.
Qed.

Lemma update_passwords_js_appends_witness :
  update_passwords_js sample_document sample_new_resources =
  sample_before ++ str "const passwords = {" ++ nl
  ++ nl ++ indent 12 ++ str "day9: 'RAISE'," ++ nl
  ++ indent 12 ++ str "day10: 'FOCUS'," ++ nl
  ++ indent 12 ++ str "day11: 'ASK'," ++ nl
  ++ indent 12 ++ str "day12: 'MIRROR'" ++ nl
  ++ indent 8 ++ str "};" ++ sample_after.
Proof.
  destruct (update_passwords_js_appends sample_document sample_new_resources
              sample_before sample_current sample_after eq_refl)
    as (_ & _ & H).
  rewrite H. vm_compute. reflexivity.
Defined.

(** C10, as the code has it: each update returns the document unchanged
    when its declaration is not found; otherwise it rewrites the text of
    the declaration found, there and wherever else that text occurs, and
    leaves the text between the occurrences as it is, so that a document
    holding that text once is unchanged outside the declaration. *)
Theorem tables_rewrite_literal_only (html_content : text)
  (resources : list resource) :
  rewritten_literal "passwords" (new_password_entries resources) html_content
                    (update_passwords_js html_content resources) /\
  rewritten_literal "pdfFiles" (new_pdf_entries resources) html_content
                    (update_pdf_paths_js html_content resources).
Proof.
  assert (H : forall name entries,
             forallb not_brace (table_head name) = true ->
             rewritten_literal name entries html_content
                               (update_table name entries html_content)).
  { intros name entries Hhead. unfold rewritten_literal.
    destruct (search dotall (table_pattern name) html_content)
      as [[[before current] after]|] eqn:E.
    - destruct (update_table_at name entries _ _ _ _ Hhead E) as (Hdoc & Hres).
      cbv zeta in *.
      assert (Hold : table_literal name current <> []).
      { rewrite table_literal_head. now destruct (table_head name ++ current). }
      split; [exact Hdoc|]. split; [exact Hres|].
      split; [symmetry; now apply join_split|].
      split.
      + unfold update_table. rewrite E. cbn [group1].
        now apply replace_join_split.
      + intros [Hb Ha]. rewrite Hres.
        now rewrite !replace_none by assumption.
    - unfold update_table. now rewrite E. }
  split; apply H; reflexivity.
Qed.

(** C10, as stated, fails: the text before the declaration found holds
    the same text, and it is rewritten too. *)
Lemma second_occurrence_rewritten :
  search dotall password_pattern twice_document =
    Some (str "const passwords = {a} ", str "a", []) /\
  update_passwords_js twice_document [] =
    str "const passwords = {" ++ nl ++ str "a," ++ nl ++ nl ++ indent 8
    ++ str "} const passwords = {" ++ nl ++ str "a," ++ nl ++ nl ++ indent 8
    ++ str "};" /\
  startswith (str "const passwords = {a} ")
             (update_passwords_js twice_document []) = false.
Proof. repeat split. Qed.

(** ** Further facts and worked examples *)

Lemma space_not_digit (c : ascii) : is_space c = true -> is_digit c = false.
Proof.
  destruct c as [[] [] [] [] [] [] [] []]; intros H; try reflexivity; discriminate H.
Qed.

(** The text handed to [int] is a non-empty run of decimal digits, so the
    conversion is defined. *)
Lemma day_field_is_digits (section before g after : text) :
  search ignorecase day_pattern section = Some (before, g, after) ->
  g <> [] /\ forallb is_digit g = true.
Proof.
  intros H. destruct (search_sound _ _ _ _ _ _ H) as (m & _ & Hm).
  unfold day_pattern, lit in Hm. rewrite match_here_lit in Hm.
  destruct (lit_prefix ignorecase (str "DAY:") m) as [t|]; [|discriminate].
  cbn [match_here] in Hm. rewrite star_disjoint in Hm.
  - cbn [match_here] in Hm. rewrite group_plus_end in Hm by reflexivity.
    pose proof (forallb_take_while (cls_match ignorecase Digit)
                  (drop_while (cls_match ignorecase Space) t)) as Hf.
    destruct (take_while (cls_match ignorecase Digit)
                (drop_while (cls_match ignorecase Space) t)) as [|c tok];
      [discriminate|].
    injection Hm as <- _. split; [discriminate|exact Hf].
  - intros c u Hc. cbn [match_here group_plus cls_match] in *.
    now rewrite (space_not_digit c Hc).
Qed.

(** Every record returned has a non-empty title and a non-empty full
    content. *)
Lemma parse_claude_response_kept (content : text) (start_day : Z) (r : resource) :
  In r (parse_claude_response content start_day) ->
  title r <> [] /\ full_content r <> [].
Proof.
  unfold parse_claude_response. rewrite parse_sections_records.
  intros H. apply filter_In in H. destruct H as [_ H]. now apply accepted_iff.
Qed.

Example split_example :
  split (str "---") (str "a---b------c") = [str "a"; str "b"; str ""; str "c"] /\
  split (str "---") [] = [[]].
Proof. split; reflexivity. Qed.

Example replace_example :
  replace (str "aa") (str "b") (str "aaaxaa") = str "baxb".
Proof. reflexivity. Qed.

Example str_of_int_examples :
  str_of_int 0 = str "0" /\ str_of_int 7 = str "7" /\
  str_of_int 120 = str "120" /\ str_of_int (-5) = str "-5".
Proof. repeat split. Qed.

Example strip_example :
  strip (str "  a b  ") = str "a b" /\ rstrip_commas (str "x,,") = str "x".
Proof. split; reflexivity. Qed.

Example title_examples :
  field "TITLE" "Untitled" (str "title: Ask For More  ") = str "Ask For More" /\
  field "TITLE" "Untitled" (str "TITLE: ") = [] /\
  field "TITLE" "Untitled" (str "no field here") = str "Untitled".
Proof. repeat split. Qed.

Example gradient_examples :
  gradient_index 1 = 0 /\ gradient_index 11 = 0 /\ gradient_index 10 = 9 /\
  gradient_index 0 = 9 /\ gradient_index (-14) = 5.
Proof. repeat split. Qed.

(** ** A labelled token in general *)

Section LabelledToken.

(** A pattern [label\s*(k+)] whose class [k] holds no white space. *)
Variables (f : flags) (label : text) (k : cls).
Hypothesis ignores_case : IGNORECASE f = true.
Hypothesis no_space : forall c, is_space c = true -> cls_match f k c = false.

Let pattern : regex := map Lit label ++ [Star Space; Group k].
Let p : ascii -> bool := cls_match f k.

Lemma match_label_token (s : text) :
  match_here f pattern s =
  match lit_prefix f label s with
  | None => None
  | Some t =>
      match take_while p (drop_while is_space t) with
      | [] => None
      | tok => Some (tok, drop_while p (drop_while is_space t))
      end
  end.
Proof.
  unfold pattern. rewrite match_here_lit.
  destruct (lit_prefix f label s) as [t|]; [|reflexivity].
  cbn [match_here]. rewrite star_disjoint.
  - cbn [match_here]. rewrite group_plus_end by reflexivity. reflexivity.
  - intros c u Hc. cbn [match_here group_plus cls_match] in *.
    now rewrite (no_space c Hc).
Qed.

Lemma label_match_token (m tok after : text) :
  match_here f pattern m = Some (tok, after) ->
  labelled_token label p m [] tok after.
Proof.
  rewrite match_label_token.
  destruct (lit_prefix f label m) as [t|] eqn:El; [|discriminate].
  apply lit_prefix_sound in El. destruct El as (lab & -> & Hlab).
  apply (spells_ignorecase f _ _ ignores_case) in Hlab.
  set (u := drop_while is_space t).
  assert (Htu : t = take_while is_space t ++ take_while p u ++ drop_while p u).
  { rewrite take_drop_while. unfold u. now rewrite take_drop_while. }
  pose proof (forallb_take_while p u) as Hf.
  destruct (take_while p u) as [|c tok'] eqn:Et; [discriminate|].
  intros H. injection H as <- <-.
  exists lab, (take_while is_space t).
  split; [|split; [exact Hlab|split; [apply forallb_take_while|split; [discriminate|split]]]].
  - cbn [app]. f_equal. exact Htu.
  - exact Hf.
  - apply drop_while_head.
Qed.

Lemma token_label_match (lab ws tok after : text) :
  map lower_char lab = map lower_char label ->
  forallb is_space ws = true -> tok <> [] -> forallb p tok = true ->
  match after with [] => True | c :: _ => p c = false end ->
  match_here f pattern (lab ++ ws ++ tok ++ after) = Some (tok, after).
Proof.
  intros Hlab Hws Hne Htok Hafter. rewrite match_label_token.
  rewrite lit_prefix_complete by (now apply (spells_ignorecase f _ _ ignores_case)).
  rewrite drop_while_all by assumption.
  assert (Hu : drop_while is_space (tok ++ after) = tok ++ after).
  { destruct tok as [|c tok]; [congruence|]. simpl.
    simpl in Htok. apply andb_true_iff in Htok. destruct Htok as [Hc _].
    destruct (is_space c) eqn:E; [|reflexivity].
    apply no_space in E. unfold p in Hc. congruence. }
  rewrite Hu.
  destruct (take_drop_while_run p tok after Htok Hafter) as [-> ->].
  destruct tok; [congruence|reflexivity].
Qed.

(** What [re.search] returns for such a pattern: the first labelled
    token of the text, or nothing when the text has none. *)
Lemma search_label_token (s : text) :
  match search f pattern s with
  | Some (before, tok, after) =>
      labelled_token label p s before tok after /\
      forall before' tok' after',
        labelled_token label p s before' tok' after' ->
        length before <= length before'
  | None =>
      forall before tok after, ~ labelled_token label p s before tok after
  end.
Proof.
  destruct (search f pattern s) as [[[b tok] r]|] eqn:E.
  - destruct (search_sound _ _ _ _ _ _ E) as (m & Hs & Hm).
    split.
    + subst s. apply labelled_token_shift. now apply label_match_token.
    + intros b' tok' r' (lab & ws & Hs' & Hlab & Hws & Hne' & Hw' & Hr').
      destruct (le_lt_dec (length b) (length b')) as [Hle|Hlt]; [exact Hle|exfalso].
      pose proof (search_leftmost _ _ _ _ _ _ E b' _ Hs' Hlt) as Hnone.
      rewrite token_label_match in Hnone by assumption. discriminate.
  - intros b' tok' r' (lab & ws & Hs' & Hlab & Hws & Hne' & Hw' & Hr').
    pose proof (search_none _ _ _ E b' _ Hs') as Hnone.
    rewrite token_label_match in Hnone by assumption. discriminate.
Qed.

End LabelledToken.

(** ** The day field *)

Lemma int_of_digits_from (s : text) (acc : Z) :
  (0 <= acc)%Z ->
  (0 <= fold_left (fun a c => 10 * a + digit_value c) s acc)%Z.
Proof.
  revert acc. induction s as [|c s IH]; intros acc H; [exact H|].
  cbn [fold_left]. apply IH. unfold digit_value. lia.
Qed.

Lemma int_raises_iff (s : text) :
  (int_raises s = true <-> max_str_digits < length s) /\
  (int_raises s = false <-> length s <= max_str_digits).
Proof.
  unfold int_raises. split.
  - apply Nat.ltb_lt.
  - apply Nat.ltb_ge.
Qed.

(** X1: in a section of ASCII text, the explicit day is the number
    written by the digits of the first place where the label DAY: (in any
    casing), optional white space and a digit follow each other.  With at
    most 4300 digits there, the day is that number, it is not negative
    and the counter stays as it is; with more digits the parser raises
    ValueError.  A section without such a place takes the counter as its
    day and moves the counter on by one. *)
Theorem explicit_day_or_counter (section : text) (day_counter : Z) :
  ascii_text section = true ->
  (exists before tok after,
      labelled_token (str "DAY:") is_digit section before tok after /\
      (forall before' tok' after',
          labelled_token (str "DAY:") is_digit section before' tok' after' ->
          length before <= length before') /\
      (length tok <= max_str_digits ->
         parse_section_checked section day_counter
           = Some (parse_section section day_counter) /\
         day (fst (parse_section section day_counter)) = int_of_digits tok /\
         (0 <= day (fst (parse_section section day_counter)))%Z /\
         snd (parse_section section day_counter) = day_counter) /\
      (max_str_digits < length tok ->
         parse_section_checked section day_counter = None))
  \/
  ((forall before tok after,
       ~ labelled_token (str "DAY:") is_digit section before tok after) /\
   parse_section_checked section day_counter
     = Some (parse_section section day_counter) /\
   day (fst (parse_section section day_counter)) = day_counter /\
   snd (parse_section section day_counter) = (day_counter + 1)%Z).
Proof.
  intros _.
  pose proof (search_label_token ignorecase (str "DAY:") Digit eq_refl
                space_not_digit section) as H.
  rewrite parse_section_checked_spec.
  unfold parse_section, day_overlong. fold (lit "DAY:") in H. fold day_pattern in H.
  destruct (search ignorecase day_pattern section) as [[[b tok] r]|];
    cbn [group1 fst snd day].
  - destruct H as [Htok Hfirst]. left. exists b, tok, r.
    split; [exact Htok|]. split; [exact Hfirst|].
    destruct (int_raises_iff tok) as [Hyes Hno]. split.
    + intros Hlen. apply Hno in Hlen. rewrite Hlen.
      split; [reflexivity|]. split; [reflexivity|]. split; [|reflexivity].
      unfold int_of_digits. apply int_of_digits_from. lia.
    + intros Hlen. apply Hyes in Hlen. now rewrite Hlen.
  - right. split; [exact H|]. repeat split.
Qed.

Lemma explicit_day_or_counter_witness :
  parse_section_checked (str "Day:  12, title: Ask") 40
    = Some (parse_section (str "Day:  12, title: Ask") 40) /\
  day (fst (parse_section (str "Day:  12, title: Ask") 40)) = 12%Z.
Proof.
  destruct (explicit_day_or_counter (str "Day:  12, title: Ask") 40 eq_refl)
    as [(b & tok & r & _ & _ & _ & _)|(_ & Hc & Hd & _)].
  - vm_compute. split; reflexivity.
  - vm_compute in Hd. discriminate Hd.
Defined.

Lemma uint_digits (u : Decimal.uint) :
  forallb is_digit (str (NilEmpty.string_of_uint u)) = true.
Proof. induction u; simpl; try reflexivity; exact IHu. Qed.

Lemma uint_value_from (u : Decimal.uint) (acc : positive) :
  fold_left digit_step (str (NilEmpty.string_of_uint u)) (Z.pos acc) =
  Z.pos (Pos.of_uint_acc u acc).
Proof.
  revert acc. induction u; intros acc; cbn [NilEmpty.string_of_uint str
    list_ascii_of_string fold_left Pos.of_uint_acc]; try reflexivity;
    fold (str (NilEmpty.string_of_uint u)); rewrite <- IHu; f_equal;
    unfold digit_step;
    match goal with
    | |- context [digit_value ?c] =>
        let v := eval vm_compute in (digit_value c) in
        change (digit_value c) with v
    end; lia.
Qed.

Lemma uint_value (u : Decimal.uint) :
  fold_left digit_step (str (NilEmpty.string_of_uint u)) 0%Z =
  Z.of_N (Pos.of_uint u).
Proof.
  induction u; cbn [NilEmpty.string_of_uint str list_ascii_of_string fold_left
    Pos.of_uint]; try reflexivity; fold (str (NilEmpty.string_of_uint u));
    try exact IHu;
    match goal with
    | |- fold_left _ _ ?a = _ =>
        let v := eval cbv in a in change a with v
    end;
    rewrite uint_value_from; reflexivity.
Qed.

(** The decimal text of a number that is not negative is a non-empty run
    of digits, and [int] reads the number back from it. *)
Lemma str_of_int_nonneg (n : Z) :
  (0 <= n)%Z ->
  str_of_int n <> [] /\ forallb is_digit (str_of_int n) = true /\
  int_of_digits (str_of_int n) = n.
Proof.
  intros Hn. destruct n as [|p|p]; [repeat split; discriminate| |lia].
  unfold str_of_int, int_of_digits. cbn [Z.to_int NilZero.string_of_int].
  pose proof (DecimalPos.Unsigned.to_uint_nonnil p) as Hnil.
  pose proof (DecimalPos.Unsigned.of_to p) as Hback.
  destruct (Pos.to_uint p) as [|u|u|u|u|u|u|u|u|u|u] eqn:E; [congruence|..];
    (split; [discriminate|]; split;
     [exact (uint_digits _)
     |change (fun acc c => (10 * acc + digit_value c)%Z) with digit_step;
      change (NilZero.string_of_uint ?d) with (NilEmpty.string_of_uint d);
      rewrite uint_value, Hback; reflexivity]).
Qed.

Lemma space_not_letter_d (c : ascii) :
  is_space c = true -> lit_match ignorecase "D"%char c = false.
Proof.
  destruct c as [[] [] [] [] [] [] [] []]; intros H; try reflexivity; discriminate H.
Qed.

Lemma cut_inside (ws x b' m' : text) :
  ws ++ x = b' ++ m' -> length b' < length ws ->
  exists c u, m' = c :: u /\ In c ws.
Proof.
  revert b'. induction ws as [|w ws IH]; intros b' H Hl; [simpl in Hl; lia|].
  destruct b' as [|b b'].
  - simpl in H. subst m'. exists w, (ws ++ x). split; [reflexivity|now left].
  - simpl in H, Hl. injection H as _ H.
    destruct (IH b' H) as (c & u & Hm & Hin); [lia|].
    exists c, u. split; [exact Hm|now right].
Qed.

(** X2: a day field written as the prompt writes it is read back.  In a
    section that begins with white space, DAY:, a space and the decimal
    text of a number that is not negative, and goes on with ASCII text
    that does not begin with a digit, the day is that number and the
    counter is left alone when the decimal text has at most 4300 digits;
    with more digits the parser raises ValueError. *)
Theorem prompt_day_round_trip (d : Z) (ws after : text) (day_counter : Z) :
  (0 <= d)%Z ->
  forallb is_space ws = true ->
  ascii_text after = true ->
  begins is_digit after = false ->
  let section := ws ++ str "DAY: " ++ str_of_int d ++ after in
  (length (str_of_int d) <= max_str_digits ->
     parse_section_checked section day_counter
       = Some (parse_section section day_counter) /\
     day (fst (parse_section section day_counter)) = d /\
     snd (parse_section section day_counter) = day_counter) /\
  (max_str_digits < length (str_of_int d) ->
     parse_section_checked section day_counter = None).
Proof.
  intros Hd Hws _ Hafter section.
  destruct (str_of_int_nonneg d Hd) as (Hne & Hdig & Hint).
  assert (Hm : match_here ignorecase day_pattern
                 (str "DAY: " ++ str_of_int d ++ after)
               = Some (str_of_int d, after)).
  { apply (token_label_match ignorecase (str "DAY:") Digit eq_refl space_not_digit
             (str "DAY:") (str " ")); try assumption; try reflexivity.
    destruct after; [exact I|exact Hafter]. }
  assert (Hs : search ignorecase day_pattern section
               = Some (ws, str_of_int d, after)).
  { apply search_first; [exact Hm|].
    intros b' m' Hbm Hlt.
    destruct (cut_inside _ _ _ _ Hbm Hlt) as (c & u & -> & Hin).
    rewrite forallb_forall in Hws. specialize (Hws _ Hin).
    unfold day_pattern, lit. rewrite match_here_lit.
    change (str "DAY:") with ("D"%char :: str "AY:"). cbn [lit_prefix].
    now rewrite (space_not_letter_d c Hws). }
  rewrite parse_section_checked_spec.
  unfold parse_section, day_overlong. rewrite Hs. cbn [group1 fst snd day].
  destruct (int_raises_iff (str_of_int d)) as [Hyes Hno]. split.
  - intros Hlen. apply Hno in Hlen. rewrite Hlen.
    split; [reflexivity|]. split; [exact Hint|reflexivity].
  - intros Hlen. apply Hyes in Hlen. now rewrite Hlen.
Qed.

Lemma prompt_day_round_trip_witness :
  day (fst (parse_section (nl ++ str "DAY: " ++ str_of_int 11 ++ nl
                           ++ str "TITLE: Ask For More") 40)) = 11%Z.
Proof.
  destruct (prompt_day_round_trip 11 nl (nl ++ str "TITLE: Ask For More") 40
              ltac:(lia) eq_refl eq_refl eq_refl) as [H _].
  apply H. vm_compute. lia.
Defined.

(** ** The line fields *)

Lemma star_some (p : ascii -> bool) (rest : text -> matched) (s : text)
  (r : text * text) :
  star p rest s = Some r -> exists s', rest s' = Some r.
Proof.
  induction s as [|c s IH]; simpl; intros H; [now exists []|].
  destruct (p c).
  - destruct (star p rest s) as [r'|] eqn:E.
    + injection H as <-. now apply IH.
    + now exists (c :: s).
  - now exists (c :: s).
Qed.

(** The group of a pattern [label\s*(k+)] holds characters of [k] only. *)
Lemma line_group_class (f : flags) (label : text) (k : cls) (s b g r : text) :
  search f (map Lit label ++ [Star Space; Group k]) s = Some (b, g, r) ->
  forallb (cls_match f k) g = true.
Proof.
  intros H. destruct (search_sound _ _ _ _ _ _ H) as (m & _ & Hm).
  rewrite match_here_lit in Hm.
  destruct (lit_prefix f label m) as [t|]; [|discriminate].
  cbn [match_here] in Hm. apply star_some in Hm. destruct Hm as (s' & Hm).
  cbn [match_here] in Hm. rewrite group_plus_end in Hm by reflexivity.
  pose proof (forallb_take_while (cls_match f k) s') as Hf.
  destruct (take_while (cls_match f k) s'); [discriminate|].
  now injection Hm as <- _.
Qed.

Lemma strip_by_infix (p : ascii -> bool) (s : text) :
  exists a b, s = a ++ strip_by p s ++ b.
Proof.
  unfold strip_by, lstrip_by.
  destruct (rstrip_by_decomp p (drop_while p s)) as (ws & Hws & _).
  exists (take_while p s), ws. now rewrite <- Hws, take_drop_while.
Qed.

Lemma rstrip_by_idem (p : ascii -> bool) (s : text) :
  rstrip_by p (rstrip_by p s) = rstrip_by p s.
Proof. unfold rstrip_by. now rewrite rev_involutive, drop_while_idem. Qed.

Lemma rstrip_by_head (p : ascii -> bool) (c : ascii) (s : text) :
  p c = false -> exists u, rstrip_by p (c :: s) = c :: u.
Proof.
  intros Hc. destruct (rstrip_by_decomp p (c :: s)) as (ws & Hs & Hws).
  destruct (rstrip_by p (c :: s)) as [|c' u].
  - simpl in Hs. subst ws. simpl in Hws. now rewrite Hc in Hws.
  - injection Hs as <- _. now exists u.
Qed.

(** Stripping twice is stripping once. *)
Lemma strip_by_idem (p : ascii -> bool) (s : text) :
  strip_by p (strip_by p s) = strip_by p s.
Proof.
  unfold strip_by, lstrip_by.
  pose proof (drop_while_head p s) as Hh.
  destruct (drop_while p s) as [|c u] eqn:E; [reflexivity|].
  destruct (rstrip_by_head p c u Hh) as (v & Hv).
  rewrite Hv. simpl. rewrite Hh, <- Hv. apply rstrip_by_idem.
Qed.

Lemma strip_single_line (g : text) :
  forallb (cls_match ignorecase Dot) g = true -> single_line (strip g).
Proof.
  intros Hg. split; [|apply strip_by_idem].
  destruct (strip_by_infix is_space g) as (a & b & Hab).
  intros Hin. rewrite forallb_forall in Hg.
  assert (Hnl : In newline g).
  { rewrite Hab. apply in_or_app. right. apply in_or_app. now left. }
  specialize (Hg _ Hnl). discriminate Hg.
Qed.

Lemma field_single_line (label default : string) (section : text) :
  single_line (str default) -> single_line (field label default section).
Proof.
  intros Hd. unfold field.
  destruct (search ignorecase (line_pattern (str label)) section)
    as [[[b g] r]|] eqn:E; cbn [group1]; [|exact Hd].
  rewrite line_pattern_label in E. apply line_group_class in E.
  now apply strip_single_line.
Qed.

Lemma default_single_line :
  single_line (str "Career") /\ single_line (str "Untitled") /\ single_line (str "").
Proof.
  repeat split; try reflexivity; intros H; simpl in H;
    repeat (destruct H as [H|H]; [discriminate H|]); exact H.
Qed.

Lemma key_point_single_line (i : Z) (section : text) :
  Forall single_line (key_point i section) /\ length (key_point i section) <= 1.
Proof.
  unfold key_point.
  destruct (search ignorecase (line_pattern (str "KEY_POINT_" ++ str_of_int i)) section)
    as [[[b g] r]|] eqn:E; cbn [group1]; [|split; [constructor|simpl; lia]].
  rewrite line_pattern_label in E. apply line_group_class in E.
  split; [|simpl; lia]. constructor; [now apply strip_single_line|constructor].
Qed.

(** X3: the category, title, hook, description and every key point of
    a parsed record are texts of one line, without a line feed and
    without white space at either end; a record has at most three key
    points. *)
Theorem line_fields_single_line (section : text) (day_counter : Z) :
  single_line (category (fst (parse_section section day_counter))) /\
  single_line (title (fst (parse_section section day_counter))) /\
  single_line (hook (fst (parse_section section day_counter))) /\
  single_line (description (fst (parse_section section day_counter))) /\
  Forall single_line (key_points (fst (parse_section section day_counter))) /\
  length (key_points (fst (parse_section section day_counter))) <= 3.
Proof.
  destruct default_single_line as (Hc & Ht & He).
  unfold parse_section.
  destruct (group1 (search ignorecase day_pattern section));
    cbn [fst category title hook description key_points];
    (split; [now apply field_single_line|]);
    (split; [now apply field_single_line|]);
    (split; [now apply field_single_line|]);
    (split; [now apply field_single_line|]);
    unfold parse_key_points; cbn [flat_map]; rewrite app_nil_r;
    destruct (key_point_single_line 1 section) as [F1 L1];
    destruct (key_point_single_line 2 section) as [F2 L2];
    destruct (key_point_single_line 3 section) as [F3 L3];
    (split; [repeat (apply Forall_app; split); assumption
            |rewrite !length_app; lia]).
Qed.

(** ** The full content and the delimiter *)

Lemma find_complete (d p q : text) : find d (p ++ d ++ q) <> None.
Proof.
  induction p as [|c p IH].
  - simpl app. destruct (d ++ q) eqn:E; cbn [find];
      rewrite <- E, startswith_app; discriminate.
  - cbn [app find]. destruct (startswith d (c :: p ++ d ++ q)); [discriminate|].
    destruct (find d (p ++ d ++ q)) as [[a b]|]; [discriminate|congruence].
Qed.

Lemma find_infix_none (d a x b : text) :
  find d (a ++ x ++ b) = None -> find d x = None.
Proof.
  intros H. destruct (find d x) as [[p q]|] eqn:E; [|reflexivity].
  apply find_some in E. subst x. exfalso.
  apply (find_complete d (a ++ p) (q ++ b)).
  now rewrite <- !app_assoc in *.
Qed.

Lemma find_first_piece (d s : text) : d <> [] -> find d (first_piece d s) = None.
Proof.
  intros Hd. unfold first_piece.
  induction s as [|c s IH].
  - rewrite (find_nil d Hd). exact (find_nil d Hd).
  - cbn [find]. destruct (startswith d (c :: s)) eqn:E.
    + now apply find_nil.
    + destruct (find d s) as [[a b]|] eqn:Ef.
      * cbn [find]. rewrite IH.
        destruct (startswith d (c :: a)) eqn:E2; [|reflexivity].
        apply find_some in Ef. subst s.
        apply (startswith_app_l d (c :: a) (d ++ b)) in E2.
        simpl app in E2. congruence.
      * cbn [find]. now rewrite E, Ef.
Qed.

(** X4: the full content of a parsed record never holds the delimiter
    of the sections. *)
Theorem full_content_without_delimiter (section : text) (day_counter : Z) :
  find delimiter (full_content (fst (parse_section section day_counter))) = None.
Proof.
  destruct (parse_section_fields section day_counter 0) as (_ & _ & _ & ->).
  unfold parse_full_content.
  destruct (group1 (search ignorecase_dotall (line_pattern (str "FULL_CONTENT"))
                      section)) as [g|]; [|reflexivity].
  rewrite hd_split by discriminate. unfold strip.
  destruct (strip_by_infix is_space (first_piece delimiter (strip_by is_space g)))
    as (a & b & Hab).
  apply (find_infix_none delimiter a _ b). rewrite <- Hab.
  apply find_first_piece. discriminate.
Qed.

(** ** The records and the sections *)

Lemma fields_any_counter (section : text) (dc dc' : Z) :
  fields_of (fst (parse_section section dc)) =
  fields_of (fst (parse_section section dc')).
Proof.
  unfold parse_section, fields_of.
  destruct (group1 (search ignorecase day_pattern section)); reflexivity.
Qed.

Lemma parse_sections_fields (sections : list text) (dc : Z) :
  map fields_of (parse_sections sections dc) =
  map (fun s => fields_of (fst (parse_section s 0))) (filter valid_section sections).
Proof.
  revert dc. induction sections as [|s rest IH]; intros dc; [reflexivity|].
  cbn [parse_sections filter]. unfold valid_section at 1.
  destruct (blank s) eqn:Hb; cbn [negb andb]; [apply IH|].
  destruct (parse_section s dc) as [r dc'] eqn:Hp.
  assert (Hf : fields_of r = fields_of (fst (parse_section s 0))).
  { rewrite <- (fields_any_counter s dc 0), Hp. reflexivity. }
  assert (Ha : accepted r = accepted (fst (parse_section s 0))).
  { unfold accepted. unfold fields_of in Hf. now injection Hf as _ -> _ _ _ _ ->. }
  rewrite <- Ha. destruct (accepted r); cbn [map]; [|apply IH].
  now rewrite IH, Hf.
Qed.

(** X5: the result has one record per kept section, in the order of the
    sections, and every field of a record but its day is what its own
    section gives, whatever the day counter was when it was reached. *)
Theorem records_follow_sections (content : text) (start_day : Z) :
  map fields_of (parse_claude_response content start_day) =
    map (fun s => fields_of (fst (parse_section s 0)))
        (filter valid_section (split delimiter content)) /\
  length (parse_claude_response content start_day) =
    length (filter valid_section (split delimiter content)).
Proof.
  pose proof (parse_sections_fields (split delimiter content) start_day) as H.
  split; [exact H|].
  apply (f_equal (@length _)) in H. now rewrite !length_map in H.
Qed.

(** ** The next day number *)

Section FindAll.

(** A pattern whose matches are never empty. *)
Variables (f : flags) (re : regex).
Hypothesis progress :
  forall m g r, match_here f re m = Some (g, r) -> length r < length m.

Lemma search_shorter (s b g r : text) :
  search f re s = Some (b, g, r) -> length r < length s.
Proof.
  intros H. destruct (search_sound _ _ _ _ _ _ H) as (m & -> & Hm).
  apply progress in Hm. rewrite length_app. lia.
Qed.

Lemma findall_upto_enough (n : nat) :
  forall s, length s <= n -> findall_upto n f re s = findall f re s.
Proof.
  unfold findall.
  induction n as [n IH] using lt_wf_ind. intros s Hs.
  destruct n as [|n].
  - destruct s; [reflexivity|simpl in Hs; lia].
  - destruct s as [|c s].
    + cbn [length findall_upto].
      destruct (search f re []) as [[[b g] r]|] eqn:E; [|reflexivity].
      apply search_shorter in E. simpl in E. lia.
    + cbn [length findall_upto].
      destruct (search f re (c :: s)) as [[[b g] r]|] eqn:E; [|reflexivity].
      pose proof (search_shorter _ _ _ _ E) as Hl. cbn [length] in Hl, Hs.
      f_equal. rewrite (IH n) by lia. rewrite (IH (length s)) by lia.
      reflexivity.
Qed.

(** The equation of [findall]. *)
Lemma findall_unfold (s : text) :
  findall f re s =
  match search f re s with
  | None => []
  | Some (_, g, r) => g :: findall f re r
  end.
Proof.
  destruct s as [|c s].
  - unfold findall at 1. cbn [length findall_upto].
    destruct (search f re []) as [[[b g] r]|] eqn:E; [|reflexivity].
    apply search_shorter in E. simpl in E. lia.
  - unfold findall at 1. cbn [length findall_upto].
    destruct (search f re (c :: s)) as [[[b g] r]|] eqn:E; [|reflexivity].
    pose proof (search_shorter _ _ _ _ E) as Hl. cbn [length] in Hl.
    rewrite findall_upto_enough by lia. reflexivity.
Qed.

End FindAll.

(** The pattern of a day at the start of a text: the word, a space and
    the longest run of digits, of which there must be one. *)
Lemma match_day_word (s : text) :
  match_here no_flags day_word_pattern s =
  match lit_prefix no_flags (str "Day ") s with
  | None => None
  | Some t =>
      match take_while is_digit t with
      | [] => None
      | tok => Some (tok, drop_while is_digit t)
      end
  end.
Proof.
  unfold day_word_pattern, lit. rewrite match_here_lit.
  destruct (lit_prefix no_flags (str "Day ") s) as [t|]; [|reflexivity].
  cbn [match_here]. now rewrite group_plus_end.
Qed.

Lemma lit_prefix_plain (label s t : text) :
  lit_prefix no_flags label s = Some t -> s = label ++ t.
Proof.
  intros H. destruct (lit_prefix_sound _ _ _ _ H) as (lab & -> & Hlab).
  now rewrite (spells_exact no_flags _ _ eq_refl Hlab).
Qed.

Lemma day_word_match (m g r : text) :
  match_here no_flags day_word_pattern m = Some (g, r) ->
  m = (str "Day " ++ g) ++ r /\ g <> [] /\ forallb is_digit g = true.
Proof.
  rewrite match_day_word.
  destruct (lit_prefix no_flags (str "Day ") m) as [t|] eqn:El; [|discriminate].
  apply lit_prefix_plain in El. subst m.
  pose proof (take_drop_while is_digit t) as Ht.
  pose proof (forallb_take_while is_digit t) as Hf.
  destruct (take_while is_digit t) as [|c tok]; [discriminate|].
  intros H. injection H as <- <-.
  split; [now rewrite <- app_assoc, Ht|]. split; [discriminate|exact Hf].
Qed.

Lemma day_word_progress (m g r : text) :
  match_here no_flags day_word_pattern m = Some (g, r) -> length r < length m.
Proof.
  intros H. destruct (day_word_match _ _ _ H) as (-> & _ & _).
  rewrite !length_app. simpl. lia.
Qed.

Lemma day_word_at (tok b : text) :
  tok <> [] -> forallb is_digit tok = true -> begins is_digit b = false ->
  match_here no_flags day_word_pattern (str "Day " ++ tok ++ b) = Some (tok, b).
Proof.
  intros Hne Htok Hb. rewrite match_day_word.
  rewrite (lit_prefix_complete no_flags _ _ _ (spells_refl _ _)).
  assert (Hb' : match b with [] => True | c :: _ => is_digit c = false end)
    by (destruct b; [exact I|exact Hb]).
  destruct (take_drop_while_run is_digit tok b Htok Hb') as [-> ->].
  destruct tok; [congruence|reflexivity].
Qed.

(** A later day in a text does not start inside an earlier match. *)
Lemma day_word_apart (g r z x : text) :
  forallb is_digit g = true -> z <> [] ->
  (str "Day " ++ g) ++ r = z ++ str "Day " ++ x ->
  exists z', r = z' ++ str "Day " ++ x.
Proof.
  intros Hg Hz H.
  destruct (app_eq_app _ _ _ _ H) as (l & [[Hl Hr]|[Hl Hr]]).
  - destruct l as [|c l].
    + exists []. symmetry. exact Hr.
    + (* the match would hold the D of the later day behind its own *)
      exfalso.
      assert (Hc : c = "D"%char) by (simpl in Hr; now injection Hr).
      subst c.
      assert (Hin : In "D"%char (skipn 1 (str "Day " ++ g))).
      { rewrite Hl. destruct z as [|z0 z]; [congruence|]. simpl.
        apply in_or_app. right. now left. }
      simpl in Hin. destruct Hin as [Hin|[Hin|[Hin|Hin]]]; try discriminate.
      rewrite forallb_forall in Hg. specialize (Hg _ Hin). discriminate Hg.
  - exists l. exact Hr.
Qed.

(** Every day written in a text is among the days [findall] returns. *)
Lemma findall_day_words (content a tok b : text) :
  content = a ++ str "Day " ++ tok ++ b ->
  tok <> [] -> forallb is_digit tok = true -> begins is_digit b = false ->
  In tok (findall no_flags day_word_pattern content).
Proof.
  remember (length content) as n eqn:Hn. revert content a Hn.
  induction n as [n IH] using lt_wf_ind. intros content a Hn Hc Hne Htok Hb.
  rewrite (findall_unfold _ _ day_word_progress).
  pose proof (day_word_at tok b Hne Htok Hb) as Hat.
  destruct (search no_flags day_word_pattern content) as [[[b0 g] r]|] eqn:E.
  - destruct (search_sound _ _ _ _ _ _ E) as (m0 & Hc0 & Hm0).
    destruct (day_word_match _ _ _ Hm0) as (Hm & _ & Hg).
    destruct (le_lt_dec (length a) (length b0)) as [Hle|Hlt].
    + (* the match is the day itself *)
      assert (Heq : length b0 = length a).
      { destruct (le_lt_dec (length b0) (length a)) as [H|H]; [lia|exfalso].
        pose proof (search_leftmost _ _ _ _ _ _ E a _ Hc H) as Hnone.
        congruence. }
      rewrite Hc in Hc0.
      destruct (app_same_length _ _ _ _ Hc0 (eq_sym Heq)) as [_ <-].
      rewrite Hat in Hm0. injection Hm0 as <- _. now left.
    + (* the match comes first: the day lies behind it *)
      right. rewrite Hc in Hc0.
      destruct (app_eq_app _ _ _ _ Hc0) as (z & [[Ha Hz]|[Ha Hz]]).
      * rewrite Hz in Hm. assert (Hzne : z <> []).
        { intros ->. rewrite app_nil_r in Ha. subst a. lia. }
        destruct (day_word_apart g r z (tok ++ b) Hg Hzne (eq_sym Hm)) as (z' & Hr).
        apply (IH (length r)) with (a := z'); try assumption; [|reflexivity].
        apply search_shorter in E; [lia|exact day_word_progress].
      * exfalso. apply (f_equal (@length _)) in Ha. rewrite length_app in Ha. lia.
  - exfalso. pose proof (search_none _ _ _ E a _ Hc) as Hnone. congruence.
Qed.

Lemma max_of_first (x : Z) (rest : list Z) : (x <= max_of x rest)%Z.
Proof.
  unfold max_of. revert x. induction rest as [|z rest IH]; intros x; simpl; [lia|].
  specialize (IH (Z.max x z)). lia.
Qed.

Lemma max_of_bound (x : Z) (rest : list Z) (y : Z) :
  In y (x :: rest) -> (y <= max_of x rest)%Z.
Proof.
  revert x. induction rest as [|z rest IH]; intros x Hin.
  - destruct Hin as [Hx|[]]. subst y. apply max_of_first.
  - destruct Hin as [Hx|[Hz|Hin]].
    + subst y. apply max_of_first.
    + subst y. pose proof (max_of_first (Z.max x z) rest) as H.
      unfold max_of in *. simpl. lia.
    + specialize (IH (Z.max x z) (or_intror Hin)). unfold max_of in *. exact IH.
Qed.

Lemma int_of_digits_nonneg (s : text) : (0 <= int_of_digits s)%Z.
Proof. unfold int_of_digits. apply int_of_digits_from. lia. Qed.

(** The conversions of the days: all of them when no day is refused,
    none when one is. *)
Lemma ints_spec (ds : list text) :
  ints ds = if existsb int_raises ds then None else Some (map int_of_digits ds).
Proof.
  induction ds as [|d rest IH]; [reflexivity|].
  cbn [ints existsb map]. unfold int_checked.
  destruct (int_raises d); cbn [orb]; [reflexivity|].
  rewrite IH. destruct (existsb int_raises rest); reflexivity.
Qed.

(** A day [int] refuses sends the function to its default. *)
Lemma next_day_refused (fs : files) (content : text) :
  fs "index.html"%string = Some content ->
  existsb int_raises (days content) = true ->
  get_next_day_number fs = 11%Z.
Proof.
  intros Hfs Hr. unfold get_next_day_number. now rewrite Hfs, ints_spec, Hr.
Qed.




(** X7: the next day number is 11 when the dashboard is missing, when it
    is ASCII text in which no digit follows the word Day and a space, and
    when one of its days has more than 4300 digits, the error of [int]
    being swallowed; it is at least 1 in every case. *)
Theorem next_day_default (fs : files) :
  (fs "index.html"%string = None -> get_next_day_number fs = 11%Z) /\
  (forall content,
      fs "index.html"%string = Some content ->
      ascii_text content = true ->
      (forall a c b, is_digit c = true -> content <> a ++ str "Day " ++ c :: b) ->
      get_next_day_number fs = 11%Z) /\
  (forall content a tok b,
      fs "index.html"%string = Some content ->
      ascii_text content = true ->
      content = a ++ str "Day " ++ tok ++ b ->
      forallb is_digit tok = true -> begins is_digit b = false ->
      max_str_digits < length tok ->
      get_next_day_number fs = 11%Z) /\
  (1 <= get_next_day_number fs)%Z.
Proof.
  split; [unfold get_next_day_number; now intros ->|]. split; [|split].
  - intros content Hfs _ Hno. unfold get_next_day_number. rewrite Hfs.
    unfold days. rewrite (findall_unfold _ _ day_word_progress).
    destruct (search no_flags day_word_pattern content) as [[[b0 g] r]|] eqn:E;
      [exfalso|reflexivity].
    destruct (search_sound _ _ _ _ _ _ E) as (m0 & Hc0 & Hm0).
    destruct (day_word_match _ _ _ Hm0) as (Hm & Hg & Hd).
    destruct g as [|c g]; [congruence|].
    simpl in Hd. apply andb_true_iff in Hd. destruct Hd as [Hc _].
    apply (Hno b0 c (g ++ r) Hc). rewrite Hc0, Hm, <- app_assoc. reflexivity.
  - intros content a tok b Hfs _ Hc Htok Hb Hlen.
    apply (next_day_refused fs content Hfs).
    apply existsb_exists. exists tok. split.
    + apply (findall_day_words content a tok b Hc); try assumption.
      intros ->. simpl in Hlen. lia.
    + now apply int_raises_iff.
  - unfold get_next_day_number.
    destruct (fs "index.html"%string) as [content|]; [|lia].
    rewrite ints_spec. destruct (existsb int_raises (days content)); [lia|].
    destruct (days content) as [|g gs]; cbn [map]; [lia|].
    pose proof (max_of_bound (int_of_digits g) (map int_of_digits gs) _
                  (or_introl eq_refl)).
    pose proof (int_of_digits_nonneg g). lia.
Qed.






(** ** The merger: what it writes and when it succeeds *)

Section MergerFacts.

Variables (soup tag : Type) (BeautifulSoup : text -> soup)
          (find_days_grid : soup -> option tag)
          (append : soup -> tag -> soup -> soup)
          (soup_str prettify : soup -> text)
          (load_resources : text -> option (list resource)).

Let run (fs : files) : outcome * files :=
  update_dashboard soup tag BeautifulSoup find_days_grid append soup_str
                   prettify load_resources fs.

(** X10: whatever the merger does, every file other than index.html is
    afterwards as it was before. *)
Theorem update_dashboard_writes_index_only (fs : files) (name : string) :
  name <> "index.html"%string -> snd (run fs) name = fs name.
Proof.
  intros Hname. unfold run, update_dashboard.
  destruct (fs "new_content.json"%string) as [json|]; [|reflexivity].
  destruct (load_resources json) as [rs|]; [|reflexivity].
  destruct (fs "index.html"%string) as [doc|]; [|reflexivity].
  destruct (find_days_grid (BeautifulSoup doc)) as [grid|]; [|reflexivity].
  cbn [snd]. unfold write_file.
  destruct (String.eqb name "index.html") eqn:E; [|reflexivity].
  apply String.eqb_eq in E. contradiction.
Qed.

(** X11: the merger returns True exactly when new_content.json is there
    and loads, index.html is there and its container is found; a
    passwords or pdfFiles table that is not found does not make it
    fail. *)
Theorem update_dashboard_succeeds_iff (fs : files) :
  fst (run fs) = Returned true <->
  exists json resources document days_grid,
    fs "new_content.json"%string = Some json /\
    load_resources json = Some resources /\
    fs "index.html"%string = Some document /\
    find_days_grid (BeautifulSoup document) = Some days_grid.
Proof.
  unfold run, update_dashboard. split.
  - destruct (fs "new_content.json"%string) as [json|]; [|discriminate].
    destruct (load_resources json) as [rs|] eqn:El; [|discriminate].
    destruct (fs "index.html"%string) as [doc|]; [|discriminate].
    destruct (find_days_grid (BeautifulSoup doc)) as [grid|] eqn:Eg; [|discriminate].
    intros _. exists json, rs, doc, grid. repeat split; assumption.
  - intros (json & rs & doc & grid & -> & -> & -> & ->). reflexivity.
Qed.

End MergerFacts.

Lemma update_dashboard_writes_index_only_witness :
  snd (update_dashboard text unit (fun s => s) flat_find_days_grid flat_append
         (fun s => s) (fun s => s) no_resources sample_merge_files)
      "new_content.json"%string
  = Some (str "{}").
Proof.
  rewrite (update_dashboard_writes_index_only text unit (fun s => s)
             flat_find_days_grid flat_append (fun s => s) (fun s => s)
             no_resources sample_merge_files "new_content.json"%string).
  - reflexivity.
  - discriminate.
Defined.

(** ** The pdfFiles table and the file names *)

(** X12: when the pdfFiles declaration is found, the updated document
    has, where the declaration was, the table's former text without the
    separators at its end, then one line dayN: 'Day_N_<title>.pdf' per
    resource, in the order of the resources, the title with its spaces
    and slashes turned into underscores. *)
Theorem update_pdf_paths_js_appends (html_content : text)
  (resources : list resource) (before current after : text) :
  search dotall pdf_pattern html_content = Some (before, current, after) ->
  let old := table_literal "pdfFiles" current in
  let new := new_table_literal "pdfFiles"
               (updated_table current (new_pdf_entries resources)) in
  let kept := rstrip_commas (rstrip current) in
  html_content =
    before ++ str "const pdfFiles = {" ++ current ++ str "};" ++ after /\
  (exists trailing,
      current = kept ++ trailing /\ forallb is_separator trailing = true) /\
  update_pdf_paths_js html_content resources =
    replace old new before
    ++ str "const pdfFiles = {" ++ nl
    ++ kept ++ str "," ++ nl
    ++ join (str "," ++ nl)
         (map (fun r => indent 12 ++ str "day" ++ str_of_int (day r)
                        ++ str ": 'Day_" ++ str_of_int (day r) ++ str "_"
                        ++ map underscore (title r) ++ str ".pdf'") resources)
    ++ nl ++ indent 8 ++ str "};"
    ++ replace old new after.
Proof.
  intros E old new kept.
  destruct (search_table _ _ _ _ _ E) as (Hhtml & _ & _).
  destruct (update_table_at "pdfFiles" (new_pdf_entries resources)
              _ _ _ _ eq_refl E) as (_ & Hres).
  split; [exact Hhtml|]. split; [apply kept_of_table|].
  unfold update_pdf_paths_js. rewrite Hres. fold old new. f_equal.
  assert (Hnew : new =
            str "const pdfFiles = {" ++ nl ++ kept ++ str "," ++ nl
            ++ join (str "," ++ nl)
                 (map (fun r => indent 12 ++ str "day" ++ str_of_int (day r)
                                ++ str ": 'Day_" ++ str_of_int (day r) ++ str "_"
                                ++ map underscore (title r) ++ str ".pdf'")
                      resources)
            ++ nl ++ indent 8 ++ str "}").
  { unfold new, new_table_literal, updated_table. fold kept.
    assert (Hentries : new_pdf_entries resources =
              map (fun r => indent 12 ++ str "day" ++ str_of_int (day r)
                            ++ str ": 'Day_" ++ str_of_int (day r) ++ str "_"
                            ++ map underscore (title r) ++ str ".pdf'") resources).
    { unfold new_pdf_entries, table_entry, day_key, pdf_filename.
      apply map_ext. intros r. rewrite title_in_filename, <- !app_assoc.
      reflexivity. }
    rewrite Hentries, <- !app_assoc. reflexivity. }
  rewrite Hnew at 1. rewrite <- !app_assoc. reflexivity.
Qed.

Lemma update_pdf_paths_js_appends_witness :
  update_pdf_paths_js sample_pdf_document sample_new_resources =
  sample_before ++ str "const pdfFiles = {" ++ nl
  ++ nl ++ indent 12 ++ str "day10: 'Day_10_Focus.pdf'," ++ nl
  ++ indent 12 ++ str "day11: 'Day_11_Ask_For_More.pdf'," ++ nl
  ++ indent 12 ++ str "day12: 'Day_12_Mirror_Tactic.pdf'" ++ nl
  ++ indent 8 ++ str "};" ++ sample_after.
Proof.
  destruct (update_pdf_paths_js_appends sample_pdf_document sample_new_resources
              sample_before sample_pdf_current sample_after eq_refl)
    as (_ & _ & H).
  rewrite H. vm_compute. reflexivity.
Defined.

Lemma uint_plain (u : Decimal.uint) :
  forallb plain_char (str (NilEmpty.string_of_uint u)) = true.
Proof. induction u; simpl; try reflexivity; exact IHu. Qed.

(** The decimal text of an integer holds no space and no slash. *)
Lemma str_of_int_plain (n : Z) : forallb plain_char (str_of_int n) = true.
Proof.
  unfold str_of_int. destruct n as [|p|p]; [reflexivity| |];
    cbn [Z.to_int NilZero.string_of_int];
    pose proof (DecimalPos.Unsigned.to_uint_nonnil p) as Hnil;
    destruct (Pos.to_uint p) as [|u|u|u|u|u|u|u|u|u|u] eqn:E; try congruence;
    change (NilZero.string_of_uint ?d) with (NilEmpty.string_of_uint d);
    try exact (uint_plain _);
    change (str (String "-"%char ?s)) with ("-"%char :: str s);
    cbn [forallb]; rewrite uint_plain; reflexivity.
Qed.

Lemma underscore_plain (t : text) : forallb plain_char (map underscore t) = true.
Proof.
  induction t as [|c t IH]; [reflexivity|]. cbn [map forallb]. rewrite IH, andb_true_r.
  unfold underscore, plain_char.
  destruct (ascii_eqb c " ") eqn:E1; [reflexivity|].
  destruct (ascii_eqb c "/") eqn:E2; [reflexivity|].
  cbn [orb]. now rewrite E1, E2.
Qed.

(** X13: the name of a PDF holds no space and no slash, whatever the
    day and the title are, so it names a file of the working directory;
    it starts with Day_ and ends with .pdf. *)
Theorem pdf_filename_plain (r : resource) :
  forallb plain_char (create_professional_pdf_filename r) = true /\
  startswith (str "Day_") (create_professional_pdf_filename r) = true /\
  startswith (rev (str ".pdf")) (rev (create_professional_pdf_filename r)) = true.
Proof.
  unfold create_professional_pdf_filename. rewrite title_in_filename.
  split; [|split].
  - rewrite !forallb_app, str_of_int_plain, underscore_plain. reflexivity.
  - apply startswith_app.
  - rewrite !app_assoc, rev_app_distr. apply startswith_app.
Qed.

(** ** The generator: what it writes and when it gives up *)

Lemma write_file_same (name : string) (content : text) (fs : files) :
  write_file name content fs name = Some content.
Proof. unfold write_file. now rewrite String.eqb_refl. Qed.

Lemma write_file_keeps (name other : string) (content : text) (fs : files) :
  fs other <> None -> write_file name content fs other <> None.
Proof. unfold write_file. destruct (String.eqb other name); [discriminate|auto]. Qed.

Lemma write_file_other (name other : string) (content : text) (fs : files) :
  other <> name -> write_file name content fs other = fs other.
Proof.
  intros H. unfold write_file. destruct (String.eqb other name) eqn:E; [|reflexivity].
  apply String.eqb_eq in E. contradiction.
Qed.

Section GeneratorFacts.

Variables (score : Type) (environ : string -> option text)
          (load_trending : text -> option (list (video score)))
          (dumps : list (text * score * list text) -> text)
          (create_message : text -> text -> option text)
          (build_pdf : resource -> option text)
          (dump_output : list resource -> text).

Let generate (fs : files) : generation * files :=
  generate_new_content score environ load_trending dumps create_message
                       build_pdf dump_output fs.

Lemma create_pdfs_keeps (resources : list resource) (fs : files) (name : string) :
  fs name <> None -> snd (create_pdfs build_pdf resources fs) name <> None.
Proof.
  revert fs. induction resources as [|r rest IH]; intros fs H; [exact H|].
  cbn [create_pdfs]. unfold create_professional_pdf.
  destruct (build_pdf r) as [bytes|]; [|exact H].
  apply IH. now apply write_file_keeps.
Qed.

Lemma create_pdfs_written (resources : list resource) (fs : files) (r : resource) :
  fst (create_pdfs build_pdf resources fs) = true -> In r resources ->
  snd (create_pdfs build_pdf resources fs)
      (file_name (create_professional_pdf_filename r)) <> None.
Proof.
  revert fs. induction resources as [|r0 rest IH]; intros fs Hok Hin; [destruct Hin|].
  cbn [create_pdfs] in *. unfold create_professional_pdf in *.
  destruct (build_pdf r0) as [bytes|]; [|discriminate Hok].
  destruct Hin as [->|Hin]; [|now apply IH].
  apply create_pdfs_keeps. rewrite write_file_same. discriminate.
Qed.

Lemma create_pdfs_other (resources : list resource) (fs : files) (name : string) :
  (forall r, name <> file_name (create_professional_pdf_filename r)) ->
  snd (create_pdfs build_pdf resources fs) name = fs name.
Proof.
  intros Hname. revert fs. induction resources as [|r rest IH]; intros fs;
    [reflexivity|].
  cbn [create_pdfs]. unfold create_professional_pdf.
  destruct (build_pdf r) as [bytes|]; [|reflexivity].
  rewrite IH. apply write_file_other. apply Hname.
Qed.

(** X14: the generator gives up with an empty list, and leaves every
    file as it was, when the API key is missing or empty, when
    trending_content.json is missing, and when the call of the model
    fails. *)
Theorem generate_new_content_gives_up (fs : files) :
  present (environ "ANTHROPIC_API_KEY"%string) = None \/
  fs "trending_content.json"%string = None \/
  (exists api_key json trending,
      present (environ "ANTHROPIC_API_KEY"%string) = Some api_key /\
      fs "trending_content.json"%string = Some json /\
      load_trending json = Some trending /\
      create_message api_key
        (prompt (dumps (viral_content score trending)) (get_next_day_number fs))
        = None) ->
  generate fs = (Generated [], fs).
Proof.
  unfold generate, generate_new_content.
  intros [H|[H|(api_key & json & trending & Hk & Hj & Hl & Hm)]].
  - now rewrite H.
  - rewrite H. now destruct (present (environ "ANTHROPIC_API_KEY"%string)).
  - now rewrite Hk, Hj, Hl, Hm.
Qed.

(** X15: the only files the generator writes are new_content.json and
    the PDFs of resources: every file under another name, whatever the
    generator does and however it ends, is afterwards as it was before.
    The names of the PDFs start with Day_, so index.html and
    trending_content.json are among the files left as they were. *)
Theorem generate_new_content_writes_only (fs : files) (name : string) :
  name <> "new_content.json"%string ->
  (forall r, name <> file_name (create_professional_pdf_filename r)) ->
  snd (generate fs) name = fs name.
Proof.
  intros Hn Hd. unfold generate, generate_new_content.
  destruct (present (environ "ANTHROPIC_API_KEY"%string)) as [key|];
    [|reflexivity].
  destruct (fs "trending_content.json"%string) as [json|]; [|reflexivity].
  destruct (load_trending json) as [trending|]; [|reflexivity].
  destruct (create_message key _) as [content|]; [|reflexivity].
  destruct (parse_claude_response_checked content (get_next_day_number fs))
    as [resources|]; [|reflexivity].
  pose proof (create_pdfs_other resources fs name Hd) as Hp.
  destruct (create_pdfs build_pdf resources fs) as [[|] fs']; cbn [snd] in *.
  - now rewrite write_file_other.
  - exact Hp.
Qed.

(** X16: when the generator returns resources, a file is on disk under
    the PDF name of each of them. *)
Theorem generate_new_content_pdfs_exist (fs : files) (resources : list resource)
  (r : resource) :
  fst (generate fs) = Generated resources -> In r resources ->
  snd (generate fs) (file_name (create_professional_pdf_filename r)) <> None.
Proof.
  unfold generate, generate_new_content.
  destruct (present (environ "ANTHROPIC_API_KEY"%string)) as [key|];
    [|intros H; injection H as <-; intros []].
  destruct (fs "trending_content.json"%string) as [json|];
    [|intros H; injection H as <-; intros []].
  destruct (load_trending json) as [trending|]; [|discriminate].
  destruct (create_message key _) as [content|];
    [|intros H; injection H as <-; intros []].
  destruct (parse_claude_response_checked content (get_next_day_number fs))
    as [parsed|]; [|discriminate].
  pose proof (create_pdfs_written parsed fs r) as Hw.
  destruct (create_pdfs build_pdf parsed fs) as [[|] fs']; cbn [fst snd] in *;
    [|discriminate].
  intros H Hin. injection H as <-.
  apply write_file_keeps. now apply Hw.
Qed.

End GeneratorFacts.

Lemma generate_new_content_gives_up_witness :
  generate_new_content unit (fun _ => None) (fun _ => Some []) (fun _ => [])
    sample_reply (fun r => Some (title r)) (fun _ => []) sample_trending_files
  = (Generated [], sample_trending_files).
Proof.
  apply generate_new_content_gives_up. left. reflexivity.
Defined.

Lemma pdf_name_starts_with_day (r : resource) :
  String.prefix "Day_" (file_name (create_professional_pdf_filename r)) = true.
Proof.
  unfold create_professional_pdf_filename, file_name.
  change (str "Day_" ++ ?x) with ("D"%char :: "a"%char :: "y"%char :: "_"%char :: x).
  cbn [string_of_list_ascii String.prefix].
  repeat (destruct (ascii_dec _ _) as [_|Hne]; [|now exfalso; apply Hne]).
  now destruct (string_of_list_ascii _).
Qed.

Lemma generate_new_content_writes_only_witness :
  snd (generate_new_content unit sample_environ (fun _ => Some []) (fun _ => [])
         sample_reply (fun r => Some (title r)) (fun _ => [])
         sample_trending_files)
      "trending_content.json"%string
  = sample_trending_files "trending_content.json"%string.
Proof.
  apply generate_new_content_writes_only; [discriminate|].
  intros r H. pose proof (pdf_name_starts_with_day r) as Hp.
  rewrite <- H in Hp. discriminate Hp.
Defined.

Lemma generate_new_content_pdfs_exist_witness :
  snd (generate_new_content unit sample_environ (fun _ => Some []) (fun _ => [])
         sample_reply (fun r => Some (title r)) (fun _ => [])
         sample_trending_files)
      "Day_11_Ask_For_More.pdf"%string <> None.
Proof.
  apply (generate_new_content_pdfs_exist unit sample_environ (fun _ => Some [])
           (fun _ => []) sample_reply (fun r => Some (title r)) (fun _ => [])
           sample_trending_files
           [ {| day := 11; category := str "Career"; title := str "Ask For More";
                hook := []; description := []; key_points := [];
                password := str "ACCESS"; full_content := str "Ask." |} ]
           {| day := 11; category := str "Career"; title := str "Ask For More";
              hook := []; description := []; key_points := [];
              password := str "ACCESS"; full_content := str "Ask." |}).
  - vm_compute. reflexivity.
  - left. reflexivity.
Defined.

(** ** Running an update again *)

Lemma first_brace_unique (x u y v : text) :
  forallb not_brace x = true -> forallb not_brace y = true ->
  x ++ "}"%char :: u = y ++ "}"%char :: v -> x = y /\ u = v.
Proof.
  revert y. induction x as [|c x IH]; intros [|d y] Hx Hy H; simpl in *.
  - injection H as <-. now split.
  - injection H as <- _. discriminate Hy.
  - injection H as -> _. discriminate Hx.
  - injection H as -> H.
    apply andb_true_iff in Hx. destruct Hx as [_ Hx].
    apply andb_true_iff in Hy. destruct Hy as [_ Hy].
    destruct (IH y Hx Hy H) as [-> ->]. now split.
Qed.

Lemma cut_before (before x b' m' : text) :
  before ++ x = b' ++ m' -> length b' < length before ->
  exists z, z <> [] /\ before = b' ++ z /\ m' = z ++ x.
Proof.
  intros H Hl. destruct (app_eq_app _ _ _ _ H) as (z & [[Hb Hm]|[Hb Hm]]).
  - exists z. split; [|now split].
    intros ->. rewrite app_nil_r in Hb. subst before. lia.
  - exfalso. apply (f_equal (@length _)) in Hb. rewrite length_app in Hb. lia.
Qed.

Section Rerun.

(** A table whose head holds no closing brace and no second [c]. *)
Variable name : string.
Hypothesis head_no_brace : forallb not_brace (table_head name) = true.
Hypothesis head_one_c :
  exists tl, table_head name = "c"%char :: tl /\ ~ In "c"%char tl.

Lemma match_table_complete (g r : text) :
  g <> [] -> forallb not_brace g = true ->
  match_here dotall (table_pattern name) (table_head name ++ g ++ str "};" ++ r)
  = Some (g, r).
Proof.
  intros Hne Hg. rewrite match_table.
  rewrite (lit_prefix_complete dotall _ _ _ (spells_refl _ _)).
  destruct (take_drop_while_run not_brace g (str "};" ++ r) Hg eq_refl) as [-> ->].
  destruct g as [|c g]; [congruence|].
  now rewrite (lit_prefix_complete dotall _ _ _ (spells_refl _ _)).
Qed.

Lemma match_table_sound (m g r : text) :
  match_here dotall (table_pattern name) m = Some (g, r) ->
  m = table_head name ++ g ++ str "};" ++ r /\
  g <> [] /\ forallb not_brace g = true.
Proof.
  intros Hm. rewrite match_table in Hm.
  destruct (lit_prefix dotall (table_head name) m) as [t|] eqn:El; [|discriminate].
  apply lit_prefix_exact in El. subst m.
  pose proof (take_drop_while not_brace t) as Ht.
  pose proof (forallb_take_while not_brace t) as Hf.
  destruct (take_while not_brace t) as [|c cur]; [discriminate|].
  destruct (lit_prefix dotall (str "};") (drop_while not_brace t)) as [r0|] eqn:Er;
    [|discriminate].
  injection Hm as <- <-.
  apply lit_prefix_exact in Er. rewrite Er in Ht.
  split; [now rewrite Ht|]. split; [discriminate|exact Hf].
Qed.

(** A match that starts before the declaration in the updated document
    starts a match in the document as it was. *)
Lemma earlier_match_was_there (z g_old tail_old g_new tail_new g' r' : text) :
  z <> [] ->
  g_old <> [] -> forallb not_brace g_old = true ->
  forallb not_brace g_new = true ->
  match_here dotall (table_pattern name)
    (z ++ table_head name ++ g_new ++ str "};" ++ tail_new) = Some (g', r') ->
  match_here dotall (table_pattern name)
    (z ++ table_head name ++ g_old ++ str "};" ++ tail_old) <> None.
Proof.
  intros Hz Hgo Hgo' Hgn Hm.
  destruct (match_table_sound _ _ _ Hm) as (Heq & Hg'ne & Hg').
  destruct head_one_c as (tl & Hhead & Hc).
  destruct (app_eq_app _ _ _ _ Heq) as (l & [[Hzl Hrest]|[Hhl Hrest]]).
  - (* z holds the head *)
    subst z. rewrite <- app_assoc.
    pose proof (take_drop_while not_brace l) as Hl.
    pose proof (forallb_take_while not_brace l) as Hl1.
    pose proof (drop_while_head not_brace l) as Hl2.
    destruct (drop_while not_brace l) as [|c l2] eqn:Ed.
    + (* no brace behind the head: the group runs on into the table *)
      rewrite app_nil_r in Hl. rewrite Hl in Hl1.
      rewrite (app_assoc l (table_head name)),
        (app_assoc (l ++ table_head name) g_old).
      rewrite match_table_complete; [discriminate| |].
      * intros Hnil. apply app_eq_nil in Hnil. destruct Hnil as [_ Hnil].
        contradiction.
      * now rewrite !forallb_app, Hl1, head_no_brace, Hgo'.
    + (* a brace behind the head: the match ends inside z *)
      assert (Hcb : c = "}"%char).
      { unfold not_brace in Hl2. apply negb_false_iff in Hl2.
        now apply ascii_eqb_eq in Hl2. }
      subst c. rewrite <- Hl in Hrest. rewrite <- app_assoc in Hrest.
      change (str "};" ++ r') with ("}"%char :: ";"%char :: r') in Hrest.
      cbn [app] in Hrest.
      destruct (first_brace_unique _ _ _ _ Hg' Hl1 Hrest) as [Hgl Hr'].
      destruct l2 as [|c2 l2].
      * exfalso. rewrite Hhead in Hr'. simpl in Hr'. discriminate Hr'.
      * assert (Hc2 : c2 = ";"%char) by (simpl in Hr'; now injection Hr').
        subst c2. rewrite <- Hl, <- Hgl, <- !app_assoc.
        change (("}"%char :: ";"%char :: l2) ++ ?x)
          with (str "};" ++ l2 ++ x).
        now rewrite match_table_complete.
  - (* z is a proper part of the head *)
    destruct l as [|c l].
    + rewrite app_nil_r in Hhl. subst z.
      rewrite (app_assoc (table_head name) g_old).
      rewrite match_table_complete; [discriminate| |].
      * intros Hnil. apply app_eq_nil in Hnil. destruct Hnil as [_ Hnil].
        contradiction.
      * now rewrite forallb_app, head_no_brace, Hgo'.
    + exfalso. rewrite Hhead in Hhl, Hrest.
      destruct z as [|z0 z]; [congruence|].
      injection Hhl as _ Htl. simpl in Hrest. injection Hrest as Hcc _.
      apply Hc. rewrite Htl, <- Hcc. apply in_or_app. right. now left.
Qed.

Lemma join_no_brace (sep : text) (parts : list text) :
  forallb not_brace sep = true ->
  forallb (forallb not_brace) parts = true ->
  forallb not_brace (join sep parts) = true.
Proof.
  intros Hsep. induction parts as [|p parts IH]; [reflexivity|].
  cbn [forallb]. intros H. apply andb_true_iff in H. destruct H as [Hp Hps].
  destruct parts as [|q parts]; [exact Hp|].
  change (join sep (p :: q :: parts)) with (p ++ sep ++ join sep (q :: parts)).
  now rewrite !forallb_app, Hp, Hsep, (IH Hps).
Qed.

Lemma updated_no_brace (current : text) (entries : list text) :
  forallb not_brace current = true ->
  forallb (forallb not_brace) entries = true ->
  forallb not_brace (nl ++ updated_table current entries ++ nl ++ indent 8) = true.
Proof.
  intros Hcur Hent. unfold updated_table.
  destruct (kept_of_table current) as (trailing & Hk & _).
  rewrite Hk, forallb_app in Hcur. apply andb_true_iff in Hcur.
  destruct Hcur as [Hkept _].
  rewrite !forallb_app, Hkept, (join_no_brace (str "," ++ nl) _ eq_refl Hent).
  reflexivity.
Qed.

(** The declaration an update has written is the one the next search
    finds, at the same place. *)
Lemma update_table_found_again (entries : list text)
  (html before current after : text) :
  search dotall (table_pattern name) html = Some (before, current, after) ->
  find (table_literal name current) before = None ->
  forallb (forallb not_brace) entries = true ->
  search dotall (table_pattern name) (update_table name entries html) =
  Some (before,
        nl ++ updated_table current entries ++ nl ++ indent 8,
        replace (table_literal name current)
                (new_table_literal name (updated_table current entries)) after).
Proof.
  intros E Honce Hent.
  destruct (update_table_at name entries _ _ _ _ head_no_brace E) as (Hdoc & Hres).
  cbv zeta in Hdoc, Hres.
  destruct (search_table _ _ _ _ _ E) as (Hhtml & Hcne & Hcur).
  assert (Hold : table_literal name current <> []).
  { rewrite table_literal_head. now destruct (table_head name ++ current). }
  rewrite (replace_none _ _ Hold _ Honce) in Hres.
  pose proof (updated_no_brace current entries Hcur Hent) as Hnew.
  set (g_new := nl ++ updated_table current entries ++ nl ++ indent 8) in *.
  set (after' := replace _ _ after) in *.
  assert (Hshape : update_table name entries html =
                   before ++ table_head name ++ g_new ++ str "};" ++ after').
  { rewrite Hres. unfold new_table_literal, table_head, g_new.
    rewrite <- !app_assoc. reflexivity. }
  rewrite Hshape. apply search_first.
  - apply match_table_complete; [discriminate|exact Hnew].
  - intros b' m' Hbm Hlt.
    destruct (cut_before _ _ _ _ Hbm Hlt) as (z & Hz & Hb & Hm).
    destruct (match_here dotall (table_pattern name) m') as [[g' r']|] eqn:Em;
      [exfalso|reflexivity].
    rewrite Hm in Em.
    apply (earlier_match_was_there z current after g_new after' g' r' Hz Hcne Hcur
             Hnew Em).
    apply (search_leftmost _ _ _ _ _ _ E b'); [|exact Hlt].
    rewrite Hhtml, Hb, <- app_assoc. reflexivity.
Qed.

End Rerun.

Lemma uint_no_brace (u : Decimal.uint) :
  forallb not_brace (str (NilEmpty.string_of_uint u)) = true.
Proof. induction u; simpl; try reflexivity; exact IHu. Qed.

Lemma str_of_int_no_brace (n : Z) : forallb not_brace (str_of_int n) = true.
Proof.
  unfold str_of_int. destruct n as [|p|p]; [reflexivity| |];
    cbn [Z.to_int NilZero.string_of_int];
    pose proof (DecimalPos.Unsigned.to_uint_nonnil p) as Hnil;
    destruct (Pos.to_uint p) as [|u|u|u|u|u|u|u|u|u|u] eqn:E; try congruence;
    change (NilZero.string_of_uint ?d) with (NilEmpty.string_of_uint d);
    try exact (uint_no_brace _);
    change (str (String "-"%char ?s)) with ("-"%char :: str s);
    cbn [forallb]; rewrite uint_no_brace; reflexivity.
Qed.

Lemma password_entries_no_brace (resources : list resource) :
  forallb (fun r => forallb not_brace (password r)) resources = true ->
  forallb (forallb not_brace) (new_password_entries resources) = true.
Proof.
  unfold new_password_entries. induction resources as [|r rest IH];
    [reflexivity|].
  cbn [map forallb]. intros H. apply andb_true_iff in H. destruct H as [Hr Hrest].
  rewrite (IH Hrest), andb_true_r.
  unfold table_entry, day_key.
  now rewrite !forallb_app, str_of_int_no_brace, Hr.
Qed.

(** X17: after an update the passwords declaration is found again at the
    same place, and its table is the updated one, when the text of the
    declaration did not occur before it and no password holds a closing
    brace; the next run therefore extends the table this run wrote. *)
Theorem passwords_found_after_update (html_content : text)
  (resources : list resource) (before current after : text) :
  search dotall password_pattern html_content = Some (before, current, after) ->
  find (table_literal "passwords" current) before = None ->
  forallb (fun r => forallb not_brace (password r)) resources = true ->
  search dotall password_pattern (update_passwords_js html_content resources) =
  Some (before,
        nl ++ updated_table current (new_password_entries resources)
        ++ nl ++ indent 8,
        replace (table_literal "passwords" current)
                (new_table_literal "passwords"
                   (updated_table current (new_password_entries resources)))
                after).
Proof.
  intros E Honce Hpw. unfold update_passwords_js, password_pattern in *.
  apply update_table_found_again; try assumption.
  - reflexivity.
  - eexists. split; [reflexivity|].
    simpl. intros H. repeat (destruct H as [H|H]; [discriminate H|]). exact H.
  - now apply password_entries_no_brace.
Qed.

Lemma passwords_found_after_update_witness :
  group1 (search dotall password_pattern
            (update_passwords_js sample_document sample_new_resources)) =
  Some (nl ++ nl ++ indent 12 ++ str "day9: 'RAISE'," ++ nl
        ++ indent 12 ++ str "day10: 'FOCUS'," ++ nl
        ++ indent 12 ++ str "day11: 'ASK'," ++ nl
        ++ indent 12 ++ str "day12: 'MIRROR'" ++ nl ++ indent 8).
Proof.
  rewrite (passwords_found_after_update sample_document sample_new_resources
             sample_before sample_current sample_after eq_refl eq_refl eq_refl).
  vm_compute. reflexivity.
Defined.

Lemma rstrip_by_last (p : ascii -> bool) (x : text) (q : ascii) :
  p q = false -> rstrip_by p (x ++ [q]) = x ++ [q].
Proof.
  intros Hq. unfold rstrip_by. rewrite rev_app_distr. simpl. rewrite Hq.
  change (q :: rev x) with (rev [q] ++ rev x).
  now rewrite <- rev_app_distr, rev_involutive.
Qed.

Lemma join_ends (sep : text) (parts : list text) (q : ascii) :
  parts <> [] ->
  Forall (fun p => exists p', p = p' ++ [q]) parts ->
  exists j, join sep parts = j ++ [q].
Proof.
  induction parts as [|p parts IH]; intros Hne Hall; [congruence|].
  inversion Hall as [|p0 ps (p' & Hp) Hps]; subst.
  destruct parts as [|p2 parts].
  - now exists p'.
  - destruct (IH ltac:(discriminate) Hps) as (j & Hj).
    exists ((p' ++ [q]) ++ sep ++ j).
    change (join sep ((p' ++ [q]) :: p2 :: parts))
      with ((p' ++ [q]) ++ sep ++ join sep (p2 :: parts)).
    now rewrite Hj, <- !app_assoc.
Qed.

Lemma password_entries_end (resources : list resource) :
  Forall (fun p => exists p', p = p' ++ ["'"%char]) (new_password_entries resources).
Proof.
  unfold new_password_entries. apply Forall_forall. intros p Hp.
  apply in_map_iff in Hp. destruct Hp as (r & <- & _).
  unfold table_entry. exists (indent 12 ++ day_key r ++ str ": '" ++ password r).
  now rewrite <- !app_assoc.
Qed.

(** X18: the update does not look for the days the table already holds:
    run twice with the same resources, it leaves a table that holds the
    line of each resource twice, behind the entries it had at first. *)
Theorem passwords_updated_twice (html_content : text)
  (resources : list resource) (before current after : text) :
  search dotall password_pattern html_content = Some (before, current, after) ->
  find (table_literal "passwords" current) before = None ->
  find (new_table_literal "passwords"
          (updated_table current (new_password_entries resources))) before = None ->
  forallb (fun r => forallb not_brace (password r)) resources = true ->
  resources <> [] ->
  group1 (search dotall password_pattern
            (update_passwords_js (update_passwords_js html_content resources)
                                 resources)) =
  Some (nl ++ nl ++ rstrip_commas (rstrip current) ++ str "," ++ nl
        ++ join (str "," ++ nl) (new_password_entries resources) ++ str "," ++ nl
        ++ join (str "," ++ nl) (new_password_entries resources)
        ++ nl ++ indent 8).
Proof.
  intros E Honce Hnew Hpw Hne.
  unfold update_passwords_js, password_pattern in *.
  set (entries := new_password_entries resources) in *.
  assert (Hent : forallb (forallb not_brace) entries = true)
    by now apply password_entries_no_brace.
  assert (Hc : exists tl, table_head "passwords" = "c"%char :: tl /\ ~ In "c"%char tl).
  { eexists. split; [reflexivity|].
    simpl. intros H. repeat (destruct H as [H|H]; [discriminate H|]). exact H. }
  pose proof (update_table_found_again "passwords" eq_refl Hc entries _ _ _ _
                E Honce Hent) as E1.
  set (cur2 := nl ++ updated_table current entries ++ nl ++ indent 8) in *.
  assert (Hlit : table_literal "passwords" cur2 =
                 new_table_literal "passwords" (updated_table current entries)).
  { unfold table_literal, new_table_literal, cur2. now rewrite <- !app_assoc. }
  rewrite <- Hlit in Hnew.
  rewrite (update_table_found_again "passwords" eq_refl Hc entries _ _ _ _
             E1 Hnew Hent).
  cbn [group1]. f_equal. f_equal.
  unfold updated_table at 1.
  assert (Hkept2 : rstrip_commas (rstrip cur2) = nl ++ updated_table current entries).
  { destruct (join_ends (str "," ++ nl) entries "'"%char) as (j & Hj).
    - unfold entries, new_password_entries. destruct resources; [congruence|discriminate].
    - apply password_entries_end.
    - unfold cur2, rstrip, rstrip_commas.
      rewrite (app_assoc nl), rstrip_by_app_all by reflexivity.
      unfold updated_table. rewrite Hj, !app_assoc.
      now rewrite !rstrip_by_last. }
  rewrite Hkept2. unfold updated_table. now rewrite <- !app_assoc.
Qed.

Lemma passwords_updated_twice_witness :
  group1 (search dotall password_pattern
            (update_passwords_js
               (update_passwords_js sample_document sample_new_resources)
               sample_new_resources)) =
  Some (nl ++ nl ++ nl ++ indent 12 ++ str "day9: 'RAISE'," ++ nl
        ++ indent 12 ++ str "day10: 'FOCUS'," ++ nl
        ++ indent 12 ++ str "day11: 'ASK'," ++ nl
        ++ indent 12 ++ str "day12: 'MIRROR'," ++ nl
        ++ indent 12 ++ str "day11: 'ASK'," ++ nl
        ++ indent 12 ++ str "day12: 'MIRROR'" ++ nl ++ indent 8).
Proof.
  rewrite (passwords_updated_twice sample_document sample_new_resources
             sample_before sample_current sample_after eq_refl eq_refl eq_refl
             eq_refl).
  - vm_compute. reflexivity.
  - discriminate.
Defined.

(** ** The section title *)

Section Sub.

Variables (f : flags) (re : regex) (repl : text).
Hypothesis progress :
  forall m g r, match_here f re m = Some (g, r) -> length r < length m.

Lemma sub_upto_enough (n : nat) :
  forall s, length s <= n -> sub_upto n f re repl s = sub f re repl s.
Proof.
  unfold sub.
  induction n as [n IH] using lt_wf_ind. intros s Hs.
  destruct n as [|n].
  - destruct s; [reflexivity|simpl in Hs; lia].
  - destruct s as [|c s].
    + cbn [length sub_upto].
      destruct (search f re []) as [[[b g] r]|] eqn:E; [|reflexivity].
      apply (search_shorter f re progress) in E. simpl in E. lia.
    + cbn [length sub_upto].
      destruct (search f re (c :: s)) as [[[b g] r]|] eqn:E; [|reflexivity].
      pose proof (search_shorter f re progress _ _ _ _ E) as Hl.
      cbn [length] in Hl, Hs.
      do 2 f_equal. rewrite (IH n) by lia. rewrite (IH (length s)) by lia.
      reflexivity.
Qed.

(** The equation of [sub]. *)
Lemma sub_unfold (s : text) :
  sub f re repl s =
  match search f re s with
  | None => s
  | Some (b, _, r) => b ++ repl ++ sub f re repl r
  end.
Proof.
  destruct s as [|c s].
  - unfold sub at 1. cbn [length sub_upto].
    destruct (search f re []) as [[[b g] r]|] eqn:E; [|reflexivity].
    apply (search_shorter f re progress) in E. simpl in E. lia.
  - unfold sub at 1. cbn [length sub_upto].
    destruct (search f re (c :: s)) as [[[b g] r]|] eqn:E; [|reflexivity].
    pose proof (search_shorter f re progress _ _ _ _ E) as Hl. cbn [length] in Hl.
    rewrite sub_upto_enough by lia. reflexivity.
Qed.

End Sub.

Lemma digit_not_dash (c : ascii) :
  is_digit c = true -> lit_match no_flags "-"%char c = false.
Proof.
  destruct c as [[] [] [] [] [] [] [] []]; intros H; try reflexivity; discriminate H.
Qed.

(** The pattern of a section title at the start of a text: the longest
    run of digits, of which there must be one, and the phrase. *)
Lemma match_series (s : text) :
  match_here no_flags series_pattern s =
  match take_while is_digit s with
  | [] => None
  | tok => option_map (fun r => (tok, r))
                      (lit_prefix no_flags series_phrase (drop_while is_digit s))
  end.
Proof.
  unfold series_pattern. cbn [match_here]. rewrite group_plus_disjoint.
  - change (cls_match no_flags Digit) with is_digit.
    destruct (take_while is_digit s); [reflexivity|].
    rewrite match_here_label.
    destruct (lit_prefix no_flags series_phrase (drop_while is_digit s)); reflexivity.
  - intros c u Hc. rewrite match_here_label.
    change series_phrase with ("-"%char :: str "Day Career Acceleration Series").
    cbn [lit_prefix]. cbn [cls_match] in Hc. now rewrite (digit_not_dash c Hc).
Qed.

Lemma series_match_at (tok r : text) :
  tok <> [] -> forallb is_digit tok = true ->
  match_here no_flags series_pattern (tok ++ series_phrase ++ r) = Some (tok, r).
Proof.
  intros Hne Htok. rewrite match_series.
  destruct (take_drop_while_run is_digit tok (series_phrase ++ r) Htok eq_refl)
    as [-> ->].
  destruct tok; [congruence|].
  now rewrite (lit_prefix_complete no_flags _ _ _ (spells_refl _ _)).
Qed.

Lemma series_match_shape (m g r : text) :
  match_here no_flags series_pattern m = Some (g, r) ->
  m = g ++ series_phrase ++ r /\ g <> [] /\ forallb is_digit g = true.
Proof.
  rewrite match_series.
  pose proof (take_drop_while is_digit m) as Hm.
  pose proof (forallb_take_while is_digit m) as Hf.
  destruct (take_while is_digit m) as [|c tok]; [discriminate|].
  destruct (lit_prefix no_flags series_phrase (drop_while is_digit m)) as [r0|] eqn:El;
    [|discriminate].
  intros H. injection H as <- <-.
  apply lit_prefix_plain in El. rewrite El in Hm.
  split; [now rewrite Hm|]. split; [discriminate|exact Hf].
Qed.

Lemma series_progress (m g r : text) :
  match_here no_flags series_pattern m = Some (g, r) -> length r < length m.
Proof.
  intros H. destruct (series_match_shape _ _ _ H) as (-> & _ & _).
  rewrite !length_app. simpl. lia.
Qed.

Lemma phrase_without_digit : forallb (fun c => negb (is_digit c)) series_phrase = true.
Proof. reflexivity. Qed.

(** A match that starts before a section title whose number was replaced
    by another number starts a match in the text as it was. *)
Lemma earlier_series_match (z g x n y g' r' : text) :
  g <> [] -> forallb is_digit g = true ->
  n <> [] -> forallb is_digit n = true ->
  match_here no_flags series_pattern (z ++ n ++ series_phrase ++ y) = Some (g', r') ->
  match_here no_flags series_pattern (z ++ g ++ series_phrase ++ x) <> None.
Proof.
  intros Hg Hgd Hn Hnd Hm.
  destruct (series_match_shape _ _ _ Hm) as (Heq & Hg'ne & Hg').
  assert (Hdigits : forall z0, forallb is_digit z0 = true ->
            match_here no_flags series_pattern (z0 ++ g ++ series_phrase ++ x)
            <> None).
  { intros z0 Hz0. rewrite app_assoc, series_match_at; [discriminate| |].
    - intros H. apply app_eq_nil in H. destruct H. contradiction.
    - now rewrite forallb_app, Hz0, Hgd. }
  assert (Hinside : forall zz l2, zz = g' ++ series_phrase ++ l2 ->
            match_here no_flags series_pattern (zz ++ g ++ series_phrase ++ x)
            <> None).
  { intros zz l2 ->. rewrite <- !app_assoc.
    now rewrite series_match_at. }
  destruct (app_eq_app _ _ _ _ Heq) as (l & [[Hzl Hrest]|[Hgl Hrest]]).
  - destruct l as [|c l].
    + rewrite app_nil_r in Hzl. subst z. now apply Hdigits.
    + destruct (app_eq_app _ _ _ _ Hrest) as (l2 & [[Hp Hr]|[Hp Hr]]).
      * destruct l2 as [|d l2].
        -- rewrite app_nil_r in Hp. apply (Hinside z []).
           now rewrite app_nil_r, Hp.
        -- exfalso. destruct n as [|n0 n]; [congruence|].
           simpl in Hr. injection Hr as <- _.
           simpl in Hnd. apply andb_true_iff in Hnd. destruct Hnd as [Hd _].
           pose proof phrase_without_digit as Hph.
           rewrite Hp, forallb_app in Hph. apply andb_true_iff in Hph.
           destruct Hph as [_ Hph]. simpl in Hph. now rewrite Hd in Hph.
      * apply (Hinside z l2). now rewrite <- Hp.
  - apply Hdigits. rewrite Hgl, forallb_app in Hg'.
    apply andb_true_iff in Hg'. now destruct Hg'.
Qed.

(** What the next search finds in a text whose first section title was
    given the number [n]. *)
Lemma search_series_replaced (s b g r n y : text) :
  search no_flags series_pattern s = Some (b, g, r) ->
  n <> [] -> forallb is_digit n = true ->
  search no_flags series_pattern (b ++ (n ++ series_phrase) ++ y) = Some (b, n, y).
Proof.
  intros E Hn Hnd.
  destruct (search_sound _ _ _ _ _ _ E) as (m & Hs & Hm).
  destruct (series_match_shape _ _ _ Hm) as (Hmm & Hg & Hgd).
  rewrite <- app_assoc. apply search_first.
  - now apply series_match_at.
  - intros b' m' Hbm Hlt.
    destruct (cut_before _ _ _ _ Hbm Hlt) as (z & Hz & Hb & Hm').
    destruct (match_here no_flags series_pattern m') as [[g' r']|] eqn:Em;
      [exfalso|reflexivity].
    rewrite Hm' in Em.
    apply (earlier_series_match z g r n y g' r' Hg Hgd Hn Hnd Em).
    apply (search_leftmost _ _ _ _ _ _ E b'); [|exact Hlt].
    rewrite Hs, Hmm, Hb, <- app_assoc. reflexivity.
Qed.

(** X19: giving the section titles a number that is not negative is
    idempotent: a second update with the same number changes nothing. *)
Theorem update_section_title_idempotent (html_content : text) (highest_day : Z) :
  (0 <= highest_day)%Z ->
  update_section_title (update_section_title html_content highest_day) highest_day
  = update_section_title html_content highest_day.
Proof.
  intros Hh. destruct (str_of_int_nonneg highest_day Hh) as (Hn & Hnd & _).
  unfold update_section_title.
  set (n := str_of_int highest_day) in *.
  remember (length html_content) as k eqn:Hk. revert html_content Hk.
  induction k as [k IH] using lt_wf_ind. intros s Hk.
  rewrite (sub_unfold _ _ (n ++ series_phrase) series_progress s).
  destruct (search no_flags series_pattern s) as [[[b g] r]|] eqn:E.
  - rewrite (sub_unfold _ _ (n ++ series_phrase) series_progress
               (b ++ (n ++ series_phrase) ++ _)).
    rewrite (search_series_replaced _ _ _ _ n _ E Hn Hnd).
    do 2 f_equal. apply (IH (length r)); [|reflexivity].
    apply (search_shorter _ _ series_progress) in E. lia.
  - rewrite (sub_unfold _ _ (n ++ series_phrase) series_progress s). now rewrite E.
Qed.

Lemma update_section_title_idempotent_witness :
  update_section_title
    (update_section_title (str "<h2>10-Day Career Acceleration Series</h2>") 13) 13
  = str "<h2>13-Day Career Acceleration Series</h2>".
Proof.
  rewrite (update_section_title_idempotent
             (str "<h2>10-Day Career Acceleration Series</h2>") 13 ltac:(lia)).
  vm_compute. reflexivity.
Defined.

(** X20: after the update every section title of the document shows the
    number given, when it is not negative; a document without a section
    title is returned as it is. *)
Theorem update_section_title_shows_day (html_content : text) (highest_day : Z) :
  (0 <= highest_day)%Z ->
  Forall (fun g => g = str_of_int highest_day)
         (findall no_flags series_pattern
                  (update_section_title html_content highest_day)) /\
  (findall no_flags series_pattern html_content = [] ->
   update_section_title html_content highest_day = html_content).
Proof.
  intros Hh. destruct (str_of_int_nonneg highest_day Hh) as (Hn & Hnd & _).
  unfold update_section_title.
  set (n := str_of_int highest_day) in *.
  split.
  - remember (length html_content) as k eqn:Hk. revert html_content Hk.
    induction k as [k IH] using lt_wf_ind. intros s Hk.
    rewrite (sub_unfold _ _ (n ++ series_phrase) series_progress s).
    destruct (search no_flags series_pattern s) as [[[b g] r]|] eqn:E.
    + rewrite (findall_unfold _ _ series_progress).
      rewrite (search_series_replaced _ _ _ _ n _ E Hn Hnd).
      constructor; [reflexivity|].
      apply (IH (length r)); [|reflexivity].
      apply (search_shorter _ _ series_progress) in E. lia.
    + rewrite (findall_unfold _ _ series_progress), E. constructor.
  - intros Hnone. rewrite (findall_unfold _ _ series_progress) in Hnone.
    rewrite (sub_unfold _ _ (n ++ series_phrase) series_progress).
    destruct (search no_flags series_pattern html_content) as [[[b g] r]|];
      [discriminate|reflexivity].
Qed.

Lemma update_section_title_shows_day_witness :
  Forall (fun g => g = str_of_int 13)
         (findall no_flags series_pattern
            (update_section_title
               (str "<h2>10-Day Career Acceleration Series</h2> 7-Day Career Acceleration Series")
               13)).
Proof.
  exact (proj1 (update_section_title_shows_day
                  (str "<h2>10-Day Career Acceleration Series</h2> 7-Day Career Acceleration Series")
                  13 ltac:(lia))).
Defined.
